(** * Batch "generate and store PDFs" edge function

    A shallow embedding of the Deno edge function
    [batch-generate-and-store-pdfs] (the serve handler, [processItem],
    [fetchDocumentWithRelations], [generatePDF], [storePDF] and
    [updateDatabaseWithPdfUrl]) together with the properties of its batch
    response.

    The function talks to a hosted database and object store through the
    Supabase client.  The embedding keeps that back end as an explicit
    [World]: tables of rows, one storage bucket, a script of the faults
    that the next requests will meet, and a log of the requests sent, of
    the pipeline functions entered and of the failures they reported.
    Code that awaits the client is written in a state-and-exception monad
    over [World].  What the function interpolates into its messages comes
    from the request body or from the tables, so the conversion to a
    string inside a template literal may throw ([template]), and so may
    reading the message of a thrown [null] ([read_message]). *)

From Stdlib.Floats Require Import PrimFloat.
From Stdlib.Strings Require Import Byte.
From stdpp Require Import base option list strings gmap.

Set Default Proof Using "Type".
Set Warnings "-register-all".

(** ** JavaScript values *)

(** The values the function handles: what [req.json()] and the client
    return, plus [undefined] for absent properties. *)
Inductive value : Type :=
| VUndefined
| VNull
| VBool (b : bool)
| VNum (x : float)
| VStr (s : string)
| VArr (xs : list value)
| VObj (fields : list (string * value)).

(** An object is its list of own properties, in insertion order. *)
Abbreviation obj := (list (string * value)).

Abbreviation bytes := (list Byte.byte).

(** [!v] is [negb (truthy v)]. *)
Definition truthy (v : value) : bool :=
  match v with
  | VUndefined | VNull => false
  | VBool b => b
  | VNum x => negb (PrimFloat.is_zero x || PrimFloat.is_nan x)
  | VStr s => negb (String.eqb s "")
  | VArr _ | VObj _ => true
  end.

(** [typeof v === 'object'] *)
Definition typeof_object (v : value) : bool :=
  match v with
  | VNull | VArr _ | VObj _ => true
  | _ => false
  end.

(** [a || b] on values. *)
Definition or_else (a b : value) : value := if truthy a then a else b.

(** [s || d] on strings. *)
Definition str_or (s d : string) : string := if String.eqb s "" then d else s.

Fixpoint obj_get (k : string) (o : obj) : value :=
  match o with
  | [] => VUndefined
  | (k', v) :: rest => if String.eqb k k' then v else obj_get k rest
  end.

(** [o[k] = v]: an existing property keeps its place, a new one goes last. *)
Fixpoint obj_set (k : string) (v : value) (o : obj) : obj :=
  match o with
  | [] => [(k, v)]
  | (k', v') :: rest =>
      if String.eqb k k' then (k, v) :: rest else (k', v') :: obj_set k v rest
  end.

(** [{ ...o, ...extra }] *)
Definition obj_spread (o extra : obj) : obj :=
  fold_left (fun acc kv => obj_set (fst kv) (snd kv) acc) extra o.

(** [v?.k], and [v.k] where [v] is known not to be nullish: the properties
    read here ([id], [type]) exist on plain objects only. *)
Definition prop (k : string) (v : value) : value :=
  match v with
  | VObj fields => obj_get k fields
  | _ => VUndefined
  end.

Definition has_key (k : string) (o : obj) : bool :=
  existsb (fun kv => String.eqb k (fst kv)) o.

(** Whether the conversion of [v] to a string (in a template literal)
    returns.  It throws a [TypeError] on an object with an own [toString]:
    in a parsed JSON value no property is callable, and then neither
    [toString] nor [valueOf] gives a primitive.  An array converts its
    elements, [null] and [undefined] excepted. *)
Fixpoint printable (v : value) : bool :=
  match v with
  | VArr xs =>
      forallb (fun x => match x with
                        | VUndefined | VNull => true
                        | _ => printable x
                        end) xs
  | VObj fields => negb (has_key "toString" fields)
  | _ => true
  end.

(** [s.replace(pat, rep)] with a string pattern: the first occurrence only. *)
Fixpoint drop_prefix (pat s : string) : option string :=
  match pat, s with
  | EmptyString, _ => Some s
  | String a pat', String b s' =>
      if Ascii.eqb a b then drop_prefix pat' s' else None
  | String _ _, EmptyString => None
  end.

Fixpoint replace_first (pat rep s : string) : string :=
  match drop_prefix pat s with
  | Some rest => rep +:+ rest
  | None =>
      match s with
      | EmptyString => EmptyString
      | String c s' => String c (replace_first pat rep s')
      end
  end.

Fixpoint join (sep : string) (parts : list string) : string :=
  match parts with
  | [] => ""
  | [p] => p
  | p :: rest => p +:+ sep +:+ join sep rest
  end.

(** ** Exceptions *)

(** An [Error] with its [message]. *)
Inductive thrown : Type :=
| Thrown (message : string).

(** [error.message] *)
Definition message_of (e : thrown) : string :=
  match e with Thrown m => m end.

(** What a [catch] clause receives: an error as above, or a thrown [null]
    or [undefined], on which reading [.message] throws in turn. *)
Inductive exception : Type :=
| Exn (e : thrown)
| ThrownNull.
Coercion Exn : thrown >-> exception.

(** A call returns, or throws an [E]. *)
Inductive outcome_of (E A : Type) : Type :=
| Returned (a : A)
| Raised (e : E).
Arguments Returned {E A} a.
Arguments Raised {E A} e.

(** The functions of this repository and its imports throw an
    [exception]; the runtime ([req.json()]) rejects with errors only. *)
Abbreviation outcome := (outcome_of exception).

(** [await p] for a promise of the runtime. *)
Definition awaited {A} (p : outcome_of thrown A) : outcome A :=
  match p with
  | Returned a => Returned a
  | Raised e => Raised (Exn e)
  end.

(** ** Document types and their configuration ([./shared-types]) *)

(** The members the handler names, and any other run-time value of the
    enum type (TypeScript does not check enums at run time; the [default:]
    branch of [generatePDF] and the [!config] test are written for it). *)
Inductive DocumentType : Type :=
| INVOICE
| PURCHASE_ORDER
| ESTIMATE
| OtherType (tag : string).

Record Relation := {
  rel_tableName : string;
  referenceField : string
}.

Record DocumentConfig := {
  tableName : string;
  accountRefField : string;
  linesTableName : option string;
  additionalRelations : option (list Relation)
}.

(** ** What the source file imports *)

(** [./shared-types] and [./pdf-adapter] are not part of the sources at
    hand, and the JavaScript runtime and the hosted service are not this
    repository's code: all are taken as parameters.  The adapter functions
    may throw. *)
Class Host := {
  (* ./shared-types *)
  documentTypeConfig : DocumentType -> option DocumentConfig;
  DocumentType_value : DocumentType -> string;
  (* ./pdf-adapter *)
  normalizeDocumentType : value -> outcome DocumentType;
  adaptDataForSharedGenerator : DocumentType -> value -> outcome value;
  generateFileName : DocumentType -> value -> outcome string;
  getStorageFolderPath : DocumentType -> outcome string;
  getPdfUrlField : DocumentType -> outcome string;
  (* runtime *)
  Number_toString : float -> string;
  JSON_stringify : value -> string;
  TextEncoder_encode : string -> bytes;
  TypeError_message : string;
  ToPrimitive_message : string;
  (* hosted service *)
  pg_eq : value -> value -> bool;
  storage_publicUrl : string -> option string;
  multiple_rows_message : string;
  unknown_relation_message : string -> string
}.

(** ** The back end *)

Inductive Step : Type :=
| StepNormalize
| StepFetch
| StepGenerate
| StepStore
| StepUpdate.

(** What the log keeps: a pipeline function was entered; a request was
    sent; a pipeline function reported its failure with [console.error];
    the [catch] of [processItem] reported an exception. *)
Inductive Event : Type :=
| Enter (s : Step)
| DbSelect (table column : string) (v : value)
| StorageUpload (path : string)
| DbUpdate (table field url : string) (id : value)
| StepError (s : Step)
| ItemError.

Record World := {
  tables : gmap string (list obj);
  bucket : gmap string bytes;
  faults : list (option string);
  trace : list Event
}.

Definition record_event (e : Event) (w : World) : World :=
  {| tables := tables w; bucket := bucket w; faults := faults w;
     trace := trace w ++ [e] |}.

(** The fault the next request meets, if any. *)
Definition take_fault (w : World) : option string * World :=
  match faults w with
  | [] => (None, w)
  | f :: rest =>
      (f, {| tables := tables w; bucket := bucket w; faults := rest;
             trace := trace w |})
  end.

Definition set_table (name : string) (rows : list obj) (w : World) : World :=
  {| tables := <[name := rows]> (tables w); bucket := bucket w;
     faults := faults w; trace := trace w |}.

Definition set_object (path : string) (content : bytes) (w : World) : World :=
  {| tables := tables w; bucket := <[path := content]> (bucket w);
     faults := faults w; trace := trace w |}.

(** The [{ data, error }] a request resolves to. *)
Inductive reply (A : Type) : Type :=
| SdkError (message : string)
| SdkData (data : A).
Arguments SdkError {A} message.
Arguments SdkData {A} data.

(** ** State and exceptions *)

Definition M (A : Type) : Type := World -> outcome A * World.

Definition ret {A} (a : A) : M A := fun w => (Returned a, w).

Definition bind {A B} (m : M A) (k : A -> M B) : M B :=
  fun w =>
    match m w with
    | (Returned a, w') => k a w'
    | (Raised e, w') => (Raised e, w')
    end.

Definition throw {A} (e : exception) : M A := fun w => (Raised e, w).

(** [try { body } catch (error) { handler }] *)
Definition try_catch {A} (body : M A) (handler : exception -> M A) : M A :=
  fun w =>
    match body w with
    | (Returned a, w') => (Returned a, w')
    | (Raised e, w') => handler e w'
    end.

(** A call of a function that touches no state. *)
Definition call {A} (r : outcome A) : M A := fun w => (r, w).

Definition log (e : Event) : M unit :=
  fun w => (Returned tt, record_event e w).

Definition enter (s : Step) : M unit := log (Enter s).

#[global] Instance M_ret : MRet M := @ret.
#[global] Instance M_bind : MBind M := fun A B k m => bind m k.


(** Runs [m] and hands its outcome over as a value. *)
Definition attempt {A} (m : M A) : M (outcome A) :=
  fun w => let (r, w') := m w in (Returned r, w').

Section EdgeFunction.
Context `{Host}.

(** [error.message] in a [catch]. *)
Definition read_message (error : exception) : outcome string :=
  match error with
  | Exn e => Returned (message_of e)
  | ThrownNull => Raised (Exn (Thrown TypeError_message))
  end.

(** The string that a [printable] value converts to; the conversion
    itself, which may throw, is [template]. *)
Fixpoint ToString (v : value) : string :=
  match v with
  | VUndefined => "undefined"
  | VNull => "null"
  | VBool true => "true"
  | VBool false => "false"
  | VNum x => Number_toString x
  | VStr s => s
  | VArr xs =>
      join "," (map (fun x => match x with
                              | VUndefined | VNull => ""
                              | _ => ToString x
                              end) xs)
  | VObj _ => "[object Object]"
  end.

(** [`${v}`]: the conversion of [v] inside a template literal. *)
Definition template (v : value) : outcome string :=
  if printable v then Returned (ToString v)
  else Raised (Exn (Thrown ToPrimitive_message)).

(** *** Requests of the Supabase client *)

Definition row_matches (column : string) (v : value) (row : obj) : bool :=
  pg_eq (obj_get column row) v.

(** [supabase.from(table).select('*').eq(column, v)] *)
Definition db_select (table column : string) (v : value) : M (reply (list obj)) :=
  fun w =>
    let (fault, w') := take_fault (record_event (DbSelect table column v) w) in
    match fault with
    | Some msg => (Returned (SdkError msg), w')
    | None =>
        match tables w' !! table with
        | None => (Returned (SdkError (unknown_relation_message table)), w')
        | Some rows =>
            (Returned (SdkData (List.filter (row_matches column v) rows)), w')
        end
    end.

(** [.maybeSingle()]: no row is [null], one row is that row, more is an
    error. *)
Definition maybeSingle (q : M (reply (list obj))) : M (reply (option obj)) :=
  r ← q;
  mret (match r with
        | SdkError msg => SdkError msg
        | SdkData [] => SdkData None
        | SdkData [row] => SdkData (Some row)
        | SdkData _ => SdkError multiple_rows_message
        end).

Definition write_url (field url : string) (id : value) (row : obj) : obj :=
  if row_matches "id" id row then obj_set field (VStr url) row else row.

(** [supabase.from(table).update({ [field]: url }).eq('id', id)] *)
Definition db_update (table field url : string) (id : value) : M (reply unit) :=
  fun w =>
    let (fault, w') := take_fault (record_event (DbUpdate table field url id) w) in
    match fault with
    | Some msg => (Returned (SdkError msg), w')
    | None =>
        match tables w' !! table with
        | None => (Returned (SdkError (unknown_relation_message table)), w')
        | Some rows =>
            (Returned (SdkData tt),
             set_table table (map (write_url field url id) rows) w')
        end
    end.

(** [supabase.storage.from('documents').upload(path, content, { upsert: true })] *)
Definition storage_upload (path : string) (content : bytes) : M (reply unit) :=
  fun w =>
    let (fault, w') := take_fault (record_event (StorageUpload path) w) in
    match fault with
    | Some msg => (Returned (SdkError msg), w')
    | None => (Returned (SdkData tt), set_object path content w')
    end.

(** *** The PDF generator stub *)

(** [mockGeneratePdf]: the log line reads [data.id], which throws on a
    nullish [data], and prints [data.id || 'unknown']. *)
Definition mockGeneratePdf (type : string) (data : value) : outcome bytes :=
  match data with
  | VUndefined | VNull => Raised (Exn (Thrown TypeError_message))
  | _ =>
      match template (or_else (prop "id" data) (VStr "unknown")) with
      | Raised e => Raised e
      | Returned _ =>
          Returned (TextEncoder_encode
                      ("PDF " +:+ type +:+ " for " +:+ JSON_stringify data))
      end
  end.

Record PdfGenerator := {
  generateInvoicePDF : value -> outcome bytes;
  generatePurchaseOrderPDF : value -> outcome bytes;
  generateEstimatePDF : value -> outcome bytes
}.

Definition loadPdfGenerator : PdfGenerator :=
  {| generateInvoicePDF := fun invoice => mockGeneratePdf "INVOICE" invoice;
     generatePurchaseOrderPDF :=
       fun purchaseOrder => mockGeneratePdf "PURCHASE_ORDER" purchaseOrder;
     generateEstimatePDF := fun estimate => mockGeneratePdf "ESTIMATE" estimate |}.

Definition generatePDF (normalizedType : DocumentType) (data : value)
  : M (option bytes) :=
  enter StepGenerate;;
  try_catch
    ((* the log line reads [data.id] and prints
        [data.id || data.glide_row_id || 'unknown'] *)
     match data with
     | VUndefined | VNull => throw (Thrown TypeError_message)
     | _ =>
         call (template (or_else (or_else (prop "id" data)
                                    (prop "glide_row_id" data))
                           (VStr "unknown")))
     end;;
     adaptedData ← call (adaptDataForSharedGenerator normalizedType data);
     let pdfGenerator := loadPdfGenerator in
     match normalizedType with
     | INVOICE =>
         pdf ← call (generateInvoicePDF pdfGenerator adaptedData);
         mret (Some pdf)
     | PURCHASE_ORDER =>
         pdf ← call (generatePurchaseOrderPDF pdfGenerator adaptedData);
         mret (Some pdf)
     | ESTIMATE =>
         pdf ← call (generateEstimatePDF pdfGenerator adaptedData);
         mret (Some pdf)
     | OtherType _ => log (StepError StepGenerate);; mret None
     end)
    (fun _ => log (StepError StepGenerate);; mret None).

(** *** Fetching a document with its relations *)

(** The loop over invoice or estimate lines: a line that names a product
    gets that product attached as [gl_products]. *)
Fixpoint attach_products (lines : list obj) : M (list obj) :=
  match lines with
  | [] => mret []
  | line :: rest =>
      line' ←
        (if truthy (obj_get "rowid_products" line) then
           p ← maybeSingle (db_select "gl_products" "glide_row_id"
                              (obj_get "rowid_products" line));
           mret (match p with
                 | SdkData (Some product) =>
                     obj_set "gl_products" (VObj product) line
                 | _ => line
                 end)
         else mret line);
      rest' ← attach_products rest;
      mret (line' :: rest')
  end.

(** The loop over [config.additionalRelations]. *)
Fixpoint fetch_additional (relations : list Relation) (glide_row_id : value)
    (additionalData : obj) : M obj :=
  match relations with
  | [] => mret additionalData
  | relation :: rest =>
      r ← db_select (rel_tableName relation) (referenceField relation)
            glide_row_id;
      fetch_additional rest glide_row_id
        (match r with
         | SdkError _ => additionalData
         | SdkData relatedItems =>
             let normalizedName :=
               replace_first "gl_" "" (rel_tableName relation) in
             obj_set normalizedName (VArr (map VObj relatedItems))
               additionalData
         end)
  end.

Definition fetch_lines (documentType : DocumentType) (config : DocumentConfig)
    (documentData : obj) : M (list obj) :=
  match linesTableName config with
  | Some linesTable =>
      if String.eqb linesTable "" then mret []
      else
        match documentType with
        | PURCHASE_ORDER =>
            r ← db_select "gl_products" "rowid_purchase_orders"
                  (obj_get "glide_row_id" documentData);
            mret (match r with
                  | SdkError _ => []
                  | SdkData products => products
                  end)
        | _ =>
            let lineRefField :=
              match documentType with
              | INVOICE => "rowid_invoices"
              | _ => "rowid_estimates"
              end in
            r ← db_select linesTable lineRefField
                  (obj_get "glide_row_id" documentData);
            match r with
            | SdkError _ => mret []
            | SdkData lines => attach_products lines
            end
        end
  | None => mret []
  end.

Definition fetchDocumentWithRelations (documentType : DocumentType)
    (documentId : value) : M (option value) :=
  enter StepFetch;;
  try_catch
    (config ←
       match documentTypeConfig documentType with
       | Some config => mret config
       | None =>
           throw (Thrown ("No configuration found for document type: "
                          +:+ DocumentType_value documentType))
       end;
     (* the log line prints [documentId] *)
     call (template documentId);;
     (* 1. the main document *)
     r ← maybeSingle (db_select (tableName config) "id" documentId);
     documentData ←
       match r with
       | SdkError msg =>
           throw (Thrown ("Database error fetching "
                          +:+ DocumentType_value documentType +:+ " "
                          +:+ ToString documentId +:+ ": " +:+ msg))
       | SdkData None =>
           throw (Thrown (DocumentType_value documentType +:+ " with ID "
                          +:+ ToString documentId +:+ " not found in table "
                          +:+ tableName config +:+ "."))
       | SdkData (Some row) => mret row
       end;
     (* 2. the account *)
     let accountRowId := obj_get (accountRefField config) documentData in
     accountData ←
       (if truthy accountRowId then
          a ← maybeSingle (db_select "gl_accounts" "glide_row_id" accountRowId);
          match a with
          | SdkError _ =>
              (* the warning prints [accountRowId] *)
              call (template accountRowId);; mret VNull
          | SdkData (Some account) => mret (VObj account)
          | SdkData None => mret VNull
          end
        else mret VNull);
     (* 3. the line items *)
     lineItems ← fetch_lines documentType config documentData;
     (* 4. additional relations *)
     additionalData ←
       match additionalRelations config with
       | Some relations =>
           fetch_additional relations (obj_get "glide_row_id" documentData) []
       | None => mret []
       end;
     (* 5. everything combined *)
     let linesKey :=
       match documentType with
       | INVOICE => "invoice_lines"
       | ESTIMATE => "estimate_lines"
       | _ => "products"
       end in
     mret (Some (VObj (obj_spread
                         (obj_set "account" accountData
                            (obj_set linesKey (VArr (map VObj lineItems))
                               documentData))
                         additionalData))))
    (fun _ =>
       (* the report prints [documentId] *)
       call (template documentId);;
       log (StepError StepFetch);; mret None).

(** *** Storing the PDF and writing its URL back *)

Definition storePDF (pdfBytes : bytes) (fileName folderPath : string)
  : M (option string) :=
  enter StepStore;;
  try_catch
    (up ← storage_upload (folderPath +:+ "/" +:+ fileName) pdfBytes;
     match up with
     | SdkError msg => throw (Thrown ("Error uploading PDF: " +:+ msg))
     | SdkData _ =>
         match storage_publicUrl (folderPath +:+ "/" +:+ fileName) with
         | Some publicUrl =>
             if String.eqb publicUrl "" then
               throw (Thrown "Failed to get public URL for uploaded PDF")
             else mret (Some publicUrl)
         | None => throw (Thrown "Failed to get public URL for uploaded PDF")
         end
     end)
    (fun _ => log (StepError StepStore);; mret None).

Definition updateDatabaseWithPdfUrl (documentType : DocumentType)
    (documentId : value) (pdfUrl : string) : M bool :=
  enter StepUpdate;;
  try_catch
    (let config := documentTypeConfig documentType in
     pdfUrlField ← call (getPdfUrlField documentType);
     (* [config.tableName] throws when there is no configuration *)
     table ←
       match config with
       | Some config => mret (tableName config)
       | None => throw (Thrown TypeError_message)
       end;
     r ← db_update table pdfUrlField pdfUrl documentId;
     match r with
     | SdkError msg =>
         throw (Thrown ("Error updating " +:+ DocumentType_value documentType
                        +:+ " record: " +:+ msg))
     | SdkData _ => mret true
     end)
    (fun _ => log (StepError StepUpdate);; mret false).

(** *** One item *)

Record BatchPDFItemResult := {
  id : value;
  type : value;
  success : bool;
  error : string;
  url : option string
}.

Definition with_type (t : value) (result : BatchPDFItemResult) :=
  {| id := id result; type := t; success := success result;
     error := error result; url := url result |}.

Definition with_error (msg : string) (result : BatchPDFItemResult) :=
  {| id := id result; type := type result; success := success result;
     error := msg; url := url result |}.

Definition with_success (pdfUrl : string) (result : BatchPDFItemResult) :=
  {| id := id result; type := type result; success := true;
     error := error result; url := Some pdfUrl |}.

(** The [catch] clause of [processItem]; [result] is the object as the
    [try] block left it.  The report prints [item.id] before anything
    else, and the message is read off the exception after it. *)
Definition processItem_catch (item : value) (result : BatchPDFItemResult)
    (error : exception) : M BatchPDFItemResult :=
  call (template (prop "id" item));;
  log ItemError;;
  msg ← call (read_message error);
  mret (with_error (str_or msg "Unknown error") result).

(** [`${prefix}${normalizedType} ${item.id}`] *)
Definition failure_message (prefix : string) (normalizedType : DocumentType)
    (item : value) : M string :=
  printed ← call (template (prop "id" item));
  mret (prefix +:+ DocumentType_value normalizedType +:+ " " +:+ printed).

(** Steps 2 to 6 of [processItem], after [result.type] was reassigned. *)
Definition processItem_steps (item : value) (normalizedType : DocumentType)
    (result : BatchPDFItemResult) : M BatchPDFItemResult :=
  (* 2. fetch the document with its relations *)
  documentData ← fetchDocumentWithRelations normalizedType (prop "id" item);
  match documentData with
  | None =>
      msg ← failure_message "Failed to fetch document data for "
              normalizedType item;
      mret (with_error msg result)
  | Some documentData =>
      (* 3. generate the PDF *)
      pdfBytes ← generatePDF normalizedType documentData;
      match pdfBytes with
      | None =>
          msg ← failure_message "Failed to generate PDF for "
                  normalizedType item;
          mret (with_error msg result)
      | Some pdfBytes =>
          (* 4. file name and folder *)
          fileName ← call (generateFileName normalizedType documentData);
          folderPath ← call (getStorageFolderPath normalizedType);
          (* 5. store the PDF *)
          pdfUrl ← storePDF pdfBytes fileName folderPath;
          match pdfUrl with
          | None =>
              msg ← failure_message "Failed to store PDF for "
                      normalizedType item;
              mret (with_error msg result)
          | Some pdfUrl =>
              (* 6. write the URL back *)
              updated ← updateDatabaseWithPdfUrl normalizedType
                          (prop "id" item) pdfUrl;
              if updated : bool then mret (with_success pdfUrl result)
              else
                msg ← failure_message
                        "Failed to update database with PDF URL for "
                        normalizedType item;
                mret (with_error msg result)
          end
      end
  end.

Definition processItem (item : value) : M BatchPDFItemResult :=
  let result :=
    {| id := prop "id" item; type := prop "type" item; success := false;
       error := ""; url := None |} in
  (* 1. normalize the document type *)
  normalized ← attempt (enter StepNormalize;;
                        call (normalizeDocumentType (prop "type" item)));
  match normalized with
  | Raised error => processItem_catch item result error
  | Returned normalizedType =>
      let result := with_type (VStr (DocumentType_value normalizedType)) result in
      try_catch (processItem_steps item normalizedType result)
        (processItem_catch item result)
  end.

(** *** The serve handler *)

Record Request := {
  method : string;
  (* [None]: no body; otherwise what [req.json()] resolves or rejects to *)
  body : option (outcome_of thrown value)
}.

(** [Deno.env] *)
Record Environment := {
  SUPABASE_URL : option string;
  SUPABASE_SERVICE_ROLE_KEY : option string
}.

Record BatchPDFResult := {
  results : list BatchPDFItemResult;
  errors : option (list string);
  batch_success : bool
}.

(** The object handed to [JSON.stringify], or the text ['ok']. *)
Inductive Body : Type :=
| BodyText (text : string)
| BodyResults (results : list BatchPDFItemResult)
| BodyBatch (response : BatchPDFResult)
| BodyFailure (error : string) (success : bool).

Record Response := {
  status : nat;
  payload : Body
}.

(** [!item || typeof item !== 'object' || !item.id || !item.type] *)
Definition invalid_item (item : value) : bool :=
  negb (truthy item) || negb (typeof_object item)
  || negb (truthy (prop "id" item)) || negb (truthy (prop "type" item)).

(** The result pushed for an item that is not processed. *)
Definition rejected (item : value) (msg : string) : BatchPDFItemResult :=
  {| id := or_else (prop "id" item) (VStr "unknown");
     type := or_else (prop "type" item) (VStr "unknown");
     success := false; error := msg; url := None |}.

(** The [catch] clause of the loop body; [results] and [errors] are the
    arrays as the [try] block left them.  The result object reads
    [itemError.message] before anything is pushed. *)
Definition process_one_catch (item : value)
    (results : list BatchPDFItemResult) (errors : list string)
    (itemError : exception) : M (list BatchPDFItemResult * list string) :=
  msg ← call (read_message itemError);
  mret (results ++ [rejected item (str_or msg "Critical processing error")],
        errors ++ ["Critical error: " +:+ msg]).

(** [`Error processing ${result.type} ${result.id}: ${result.error}`] *)
Definition error_report (result : BatchPDFItemResult) : M string :=
  printedType ← call (template (type result));
  printedId ← call (template (id result));
  mret ("Error processing " +:+ printedType +:+ " " +:+ printedId +:+ ": "
        +:+ error result).

(** The body of the [for (const item of items)] loop.  The arrays are
    changed in place, so what the [try] block pushed before it threw is
    still there in the [catch]: the outcome of each call that may throw is
    taken with [attempt], and the [catch] gets the arrays of that
    moment. *)
Definition process_one (item : value)
    (acc : list BatchPDFItemResult * list string)
  : M (list BatchPDFItemResult * list string) :=
  let (results, errors) := acc in
  if invalid_item item then
    mret (results ++ [rejected item "Invalid item format (missing id or type)"],
          errors)
  else
    processed ← attempt (processItem item);
    match processed with
    | Raised itemError => process_one_catch item results errors itemError
    | Returned result =>
        let results := results ++ [result] in
        if success result then mret (results, errors)
        else
          line ← attempt (error_report result);
          match line with
          | Returned line => mret (results, errors ++ [line])
          | Raised itemError =>
              process_one_catch item results errors itemError
          end
    end.

Fixpoint for_each_item (items : list value)
    (acc : list BatchPDFItemResult * list string)
  : M (list BatchPDFItemResult * list string) :=
  match items with
  | [] => mret acc
  | item :: rest => acc' ← process_one item acc; for_each_item rest acc'
  end.

Definition env_missing (v : option string) : bool :=
  match v with
  | Some s => String.eqb s ""
  | None => true
  end.

(** [const { items } = await req.json()] *)
Definition read_items (parsed : value) : outcome value :=
  match parsed with
  | VUndefined | VNull => Raised (Exn (Thrown TypeError_message))
  | _ => Returned (prop "items" parsed)
  end.

(** The [try] block of the handler.  [createClient] only builds the client
    object; the back end it gives access to is the [World]. *)
Definition handler_try (env : Environment) (req : Request) : M Response :=
  if env_missing (SUPABASE_URL env) || env_missing (SUPABASE_SERVICE_ROLE_KEY env)
  then throw (Thrown "Missing environment variables SUPABASE_URL or SUPABASE_SERVICE_ROLE_KEY")
  else
    match body req with
    | None => throw (Thrown "Request has no body.")
    | Some json =>
        parsed ← call (awaited json);
        items ← call (read_items parsed);
        match items with
        | VArr [] => mret {| status := 200; payload := BodyResults [] |}
        | VArr items =>
            '(results, errors) ← for_each_item items ([], []);
            let response :=
              {| results := results;
                 errors := match errors with [] => None | _ => Some errors end;
                 batch_success := match errors with [] => true | _ => false end |} in
            mret {| status := 200; payload := BodyBatch response |}
        | _ => throw (Thrown "Request body must contain an 'items' array.")
        end
    end.

Definition handler (env : Environment) (req : Request) : M Response :=
  if String.eqb (method req) "OPTIONS" then
    mret {| status := 200; payload := BodyText "ok" |}
  else
    try_catch (handler_try env req)
      (fun error =>
         msg ← call (read_message error);
         mret {| status := 500;
                 payload := BodyFailure (str_or msg "Unknown error") false |}).

End EdgeFunction.

(** ** The sync overview card ([ActiveMappingCard.tsx]) *)

(** What the component computes before it renders: the texts with their
    fallbacks, whether the Sync button is disabled, and the call of
    [onSync] that a click makes. *)
Module ActiveMappingCard.

(** The fields of [GlSyncStatus] that the card reads; [@/types/glsync] is
    not among the sources, each field is taken as a string that may be
    null or undefined. *)
Record GlSyncStatus := {
  glide_table_display_name : option string;
  glide_table : option string;
  app_name : option string;
  supabase_table : option string;
  current_status : option string;
  connection_id : option string;
  mapping_id : option string
}.

(** Truthiness of a string that may be missing. *)
Definition present (a : option string) : bool :=
  match a with
  | Some s => negb (String.eqb s "")
  | None => false
  end.

(** [a || b] *)
Definition or_opt (a b : option string) : option string :=
  if present a then a else b.

(** [a || 'literal'] *)
Definition or_default (a : option string) (d : string) : string :=
  match a with
  | Some s => str_or s d
  | None => d
  end.

Definition displayName (status : GlSyncStatus) : string :=
  or_default (or_opt (glide_table_display_name status) (glide_table status))
    "Unknown Table".

Definition appName (status : GlSyncStatus) : string :=
  or_default (app_name status) "Unknown App".

Definition supababeTable (status : GlSyncStatus) : string :=
  or_default (supabase_table status) "Unknown Table".

Definition currentStatus (status : GlSyncStatus) : string :=
  or_default (current_status status) "not_synced".

(** The arguments of the [onSync] call that [handleSync] makes, if it
    makes one. *)
Definition handleSync (status : GlSyncStatus) : option (string * string) :=
  if present (connection_id status) && present (mapping_id status) then
    match connection_id status, mapping_id status with
    | Some c, Some m => Some (c, m)
    | _, _ => None
    end
  else None.

Definition isDisabled (status : GlSyncStatus) (isSyncing : bool) : bool :=
  isSyncing || String.eqb (currentStatus status) "processing"
  || negb (present (connection_id status))
  || negb (present (mapping_id status)).

Definition buttonLabel (isSyncing : bool) : string :=
  if isSyncing then "Syncing..." else "Sync Now".

Section Label.
(** [s.charAt(0).toUpperCase() + s.slice(1)] *)
Variable capitalize : string -> string.

(** The text beside the status icon. *)
Definition statusLabel (status : GlSyncStatus) : string :=
  if String.eqb (currentStatus status) "" then "Not synced"
  else capitalize (currentStatus status).

End Label.

End ActiveMappingCard.

(** ** A small deployment, for running the function *)

Module Demo.

Definition config_of (t : DocumentType) : option DocumentConfig :=
  match t with
  | INVOICE =>
      Some {| tableName := "gl_invoices"; accountRefField := "rowid_accounts";
              linesTableName := Some "gl_invoice_lines";
              additionalRelations :=
                Some [{| rel_tableName := "gl_customer_payments";
                         referenceField := "rowid_invoices" |}] |}
  | PURCHASE_ORDER =>
      Some {| tableName := "gl_purchase_orders";
              accountRefField := "rowid_accounts";
              linesTableName := Some "gl_products";
              additionalRelations := None |}
  | ESTIMATE =>
      Some {| tableName := "gl_estimates"; accountRefField := "rowid_accounts";
              linesTableName := Some "gl_estimate_lines";
              additionalRelations := None |}
  | OtherType _ => None
  end.

Definition type_value (t : DocumentType) : string :=
  match t with
  | INVOICE => "invoice"
  | PURCHASE_ORDER => "purchase_order"
  | ESTIMATE => "estimate"
  | OtherType tag => tag
  end.

Definition normalize (v : value) : outcome DocumentType :=
  match v with
  | VStr s =>
      if String.eqb s "invoice" then Returned INVOICE
      else if String.eqb s "purchase_order" then Returned PURCHASE_ORDER
      else if String.eqb s "estimate" then Returned ESTIMATE
      else Raised (Exn (Thrown ("Unsupported document type: " +:+ s)))
  | _ => Raised (Exn (Thrown "Unsupported document type"))
  end.

Definition file_name (t : DocumentType) (data : value) : outcome string :=
  match prop "glide_row_id" data with
  | VStr s => Returned (s +:+ ".pdf")
  | _ => Returned "document.pdf"
  end.

Definition same_text (a b : value) : bool :=
  match a, b with
  | VStr x, VStr y => String.eqb x y
  | _, _ => false
  end.

#[export] Instance host : Host := {|
  documentTypeConfig := config_of;
  DocumentType_value := type_value;
  normalizeDocumentType := normalize;
  adaptDataForSharedGenerator := fun _ data => Returned data;
  generateFileName := file_name;
  getStorageFolderPath := fun t => Returned (type_value t +:+ "s");
  getPdfUrlField := fun _ => Returned "supabase_pdf_url";
  Number_toString := fun _ => "0";
  JSON_stringify := fun _ => "{}";
  TextEncoder_encode := String.list_byte_of_string;
  TypeError_message := "Cannot read properties of undefined";
  ToPrimitive_message := "Cannot convert object to primitive value";
  pg_eq := same_text;
  storage_publicUrl := fun path => Some ("https://storage.test/documents/" +:+ path);
  multiple_rows_message :=
    "JSON object requested, multiple (or no) rows returned";
  unknown_relation_message := fun table => "relation " +:+ table +:+ " does not exist"
|}.

Definition invoice_row : obj :=
  [("id", VStr "inv-1"); ("glide_row_id", VStr "g-1");
   ("rowid_accounts", VStr "acc-1")].

Definition account_row : obj := [("glide_row_id", VStr "acc-1")].

Definition world : World :=
  {| tables :=
       <["gl_invoices" := [invoice_row] ]>
         (<["gl_accounts" := [account_row] ]>
            (<["gl_invoice_lines" := [] ]>
               (<["gl_customer_payments" := [] ]> ∅)));
     bucket := ∅;
     faults := [];
     trace := [] |}.

End Demo.

(** A configured environment, and a POST of [{ items }]. *)
Definition service_env : Environment :=
  {| SUPABASE_URL := Some "https://project.test";
     SUPABASE_SERVICE_ROLE_KEY := Some "service-role-key" |}.

Definition item_of (id type : string) : value :=
  VObj [("id", VStr id); ("type", VStr type)].

Definition post_items (items : list value) : Request :=
  {| method := "POST"; body := Some (Returned (VObj [("items", VArr items)])) |}.

(** Runs in the small deployment. *)
Module Run.

Definition invoice : value := item_of "inv-1" "invoice".

Definition missing_invoice : value := item_of "nope" "invoice".



Definition after_missing_fetch : World :=
  snd (@fetchDocumentWithRelations Demo.host INVOICE (VStr "nope")
         (record_event (Enter StepNormalize) Demo.world)).

Definition no_env : Environment :=
  {| SUPABASE_URL := None; SUPABASE_SERVICE_ROLE_KEY := None |}.

End Run.

(** Further runs in the small deployment. *)
Module Probe.

(** The deployment with a storage that gives no public URL. *)
Definition host_without_urls : Host := {|
  documentTypeConfig := Demo.config_of;
  DocumentType_value := Demo.type_value;
  normalizeDocumentType := Demo.normalize;
  adaptDataForSharedGenerator := fun _ data => Returned data;
  generateFileName := Demo.file_name;
  getStorageFolderPath := fun t => Returned (Demo.type_value t +:+ "s");
  getPdfUrlField := fun _ => Returned "supabase_pdf_url";
  Number_toString := fun _ => "0";
  JSON_stringify := fun _ => "{}";
  TextEncoder_encode := String.list_byte_of_string;
  TypeError_message := "Cannot read properties of undefined";
  ToPrimitive_message := "Cannot convert object to primitive value";
  pg_eq := Demo.same_text;
  storage_publicUrl := fun _ => None;
  multiple_rows_message :=
    "JSON object requested, multiple (or no) rows returned";
  unknown_relation_message := fun table => "relation " +:+ table +:+ " does not exist"
|}.

(** The deployment with an adapter that throws [null]. *)
Definition host_throwing_null : Host := {|
  documentTypeConfig := Demo.config_of;
  DocumentType_value := Demo.type_value;
  normalizeDocumentType := fun _ => Raised ThrownNull;
  adaptDataForSharedGenerator := fun _ data => Returned data;
  generateFileName := Demo.file_name;
  getStorageFolderPath := fun t => Returned (Demo.type_value t +:+ "s");
  getPdfUrlField := fun _ => Returned "supabase_pdf_url";
  Number_toString := fun _ => "0";
  JSON_stringify := fun _ => "{}";
  TextEncoder_encode := String.list_byte_of_string;
  TypeError_message := "Cannot read properties of undefined";
  ToPrimitive_message := "Cannot convert object to primitive value";
  pg_eq := Demo.same_text;
  storage_publicUrl :=
    fun path => Some ("https://storage.test/documents/" +:+ path);
  multiple_rows_message :=
    "JSON object requested, multiple (or no) rows returned";
  unknown_relation_message := fun table => "relation " +:+ table +:+ " does not exist"
|}.

Definition fetched_invoice : value :=
  match fst (@fetchDocumentWithRelations Demo.host INVOICE (VStr "inv-1")
               Demo.world) with
  | Returned (Some doc) => doc
  | _ => VNull
  end.

Definition after_fetch : World :=
  snd (@fetchDocumentWithRelations Demo.host INVOICE (VStr "inv-1") Demo.world).

Definition after_update : World :=
  snd (@updateDatabaseWithPdfUrl Demo.host INVOICE (VStr "inv-1")
         "https://storage.test/documents/invoices/g-1.pdf" Demo.world).

Definition after_bad_update : World :=
  snd (@updateDatabaseWithPdfUrl Demo.host (OtherType "memo") (VStr "inv-1")
         "https://storage.test/documents/invoices/g-1.pdf" Demo.world).

Definition missing_result : BatchPDFItemResult :=
  {| id := VStr "nope"; type := VStr "invoice"; success := false;
     error := "Failed to fetch document data for invoice nope"; url := None |}.

Definition after_missing : World :=
  snd (@processItem Demo.host (item_of "nope" "invoice") Demo.world).

Definition bogus : value := item_of "inv-1" "receipt".

Definition without_type : value := VObj [("id", VStr "inv-1")].

(** An object that cannot be converted to a string. *)
Definition unprintable : value := VObj [("toString", VNum 1%float)].

Definition unprintable_id : value :=
  VObj [("id", unprintable); ("type", VStr "invoice")].

Definition unprintable_type : value :=
  VObj [("id", VStr "inv-1"); ("type", unprintable)].

Definition broken_post : Request :=
  {| method := "POST"; body := Some (Raised (Thrown "Unexpected end of JSON input")) |}.

Definition ready : ActiveMappingCard.GlSyncStatus :=
  {| ActiveMappingCard.glide_table_display_name := None;
     ActiveMappingCard.glide_table := Some "native-table-1";
     ActiveMappingCard.app_name := Some "Inventory";
     ActiveMappingCard.supabase_table := Some "gl_products";
     ActiveMappingCard.current_status := None;
     ActiveMappingCard.connection_id := Some "conn-1";
     ActiveMappingCard.mapping_id := Some "map-1" |}.

End Probe.

(** ** Vocabulary of the properties *)

(** The order in which [processItem] goes through its steps. *)
Definition pipeline : list Step :=
  [StepNormalize; StepFetch; StepGenerate; StepStore; StepUpdate].

(** What a run appended to the log. *)
Definition new_events (w w' : World) : list Event :=
  drop (length (trace w)) (trace w').

(** The pipeline functions entered, in order. *)
Definition steps_of (evs : list Event) : list Step :=
  omap (fun e => match e with Enter s => Some s | _ => None end) evs.

Definition is_select (e : Event) : Prop :=
  match e with DbSelect _ _ _ => True | _ => False end.

Definition is_request (e : Event) : Prop :=
  match e with
  | DbSelect _ _ _ | StorageUpload _ | DbUpdate _ _ _ _ => True
  | _ => False
  end.

Definition is_write (e : Event) : Prop :=
  match e with StorageUpload _ | DbUpdate _ _ _ _ => True | _ => False end.

(** Success and URL go together, and a failure carries a message. *)
Definition result_invariant (r : BatchPDFItemResult) : Prop :=
  (success r = true <-> is_Some (url r))
  /\ (success r = false -> error r <> "").

Definition results_of (b : Body) : list BatchPDFItemResult :=
  match b with
  | BodyResults rs => rs
  | BodyBatch response => results response
  | _ => []
  end.

(** The [success] property of the response object, when it has one. *)
Definition success_of (b : Body) : option bool :=
  match b with
  | BodyBatch response => Some (batch_success response)
  | BodyFailure _ ok => Some ok
  | _ => None
  end.

(** How many times [processItem] was started. *)
Definition items_processed (evs : list Event) : nat :=
  length (List.filter (fun s => match s with StepNormalize => true | _ => false end)
            (steps_of evs)).

Definition well_formed (item : value) : bool := negb (invalid_item item).

(** What the handler answers for [item]: one result, or two when the
    report of a failed result throws after the result was pushed.  Every
    one carries the item's id (or ['unknown']), and a malformed item gets
    the one rejection. *)
Definition answers (item : value) (block : list BatchPDFItemResult) : Prop :=
  (length block = 1 \/ length block = 2)
  /\ Forall (fun r => id r = or_else (prop "id" item) (VStr "unknown")
                      /\ result_invariant r) block
  /\ (invalid_item item = true ->
      block = [rejected item "Invalid item format (missing id or type)"]).

(** The request gets past the checks of the handler with [items]:
    both environment variables are set, there is a body, and its [items]
    is an array. *)
Definition passes_validation `{Host} (env : Environment) (req : Request)
    (items : list value) : Prop :=
  env_missing (SUPABASE_URL env) = false
  /\ env_missing (SUPABASE_SERVICE_ROLE_KEY env) = false
  /\ exists parsed, body req = Some (Returned parsed)
                    /\ read_items parsed = Returned (VArr items).

(** A CORS preflight is answered before any check. *)
Definition is_preflight (req : Request) : Prop := method req = "OPTIONS".

(** The top-level failures and their messages. *)
Inductive top_level_failure `{Host} (env : Environment) (req : Request)
  : string -> Prop :=
| NoEnvironment :
    env_missing (SUPABASE_URL env)
    || env_missing (SUPABASE_SERVICE_ROLE_KEY env) = true ->
    top_level_failure env req
      "Missing environment variables SUPABASE_URL or SUPABASE_SERVICE_ROLE_KEY"
| NoBody :
    env_missing (SUPABASE_URL env)
    || env_missing (SUPABASE_SERVICE_ROLE_KEY env) = false ->
    body req = None ->
    top_level_failure env req "Request has no body."
| NoItemsArray parsed items :
    env_missing (SUPABASE_URL env)
    || env_missing (SUPABASE_SERVICE_ROLE_KEY env) = false ->
    body req = Some (Returned parsed) ->
    read_items parsed = Returned items ->
    (forall xs, items <> VArr xs) ->
    top_level_failure env req "Request body must contain an 'items' array.".

(** After [processItem item] took [w] to [w'] with result [r]: the PDF is in
    the bucket under the path whose public URL is [r]'s, and the one row
    of the document's table that had the item's id carries that URL in the
    PDF-URL field of its type. *)
Definition stored_and_linked `{Host} (item : value) (w w' : World)
    (r : BatchPDFItemResult) : Prop :=
  exists pdfUrl path content t config field rows row,
    url r = Some pdfUrl /\ pdfUrl <> ""
    /\ storage_publicUrl path = Some pdfUrl
    /\ bucket w' !! path = Some content
    /\ normalizeDocumentType (prop "type" item) = Returned t
    /\ documentTypeConfig t = Some config
    /\ getPdfUrlField t = Returned field
    /\ tables w !! tableName config = Some rows
    /\ List.filter (row_matches "id" (prop "id" item)) rows = [row]
    /\ tables w' !! tableName config
       = Some (map (write_url field pdfUrl (prop "id" item)) rows)
    /\ obj_get field (write_url field pdfUrl (prop "id" item) row)
       = VStr pdfUrl.

(** The stages that [processItem item] has behind it, from [w]: the type
    is normalized and the document fetched; the PDF is generated as well;
    the PDF is stored under its name as well. *)
Definition fetched `{Host} (item : value) (w : World) (t : DocumentType)
    (documentData : value) (w1 : World) : Prop :=
  normalizeDocumentType (prop "type" item) = Returned t
  /\ fetchDocumentWithRelations t (prop "id" item)
       (record_event (Enter StepNormalize) w)
     = (Returned (Some documentData), w1).

Definition generated `{Host} (item : value) (w : World) (t : DocumentType)
    (documentData : value) (pdfBytes : bytes) (w2 : World) : Prop :=
  exists w1,
    fetched item w t documentData w1
    /\ generatePDF t documentData w1 = (Returned (Some pdfBytes), w2).

Definition stored `{Host} (item : value) (w : World) (t : DocumentType)
    (pdfUrl : string) (w3 : World) : Prop :=
  exists documentData pdfBytes w2 fileName folderPath,
    generated item w t documentData pdfBytes w2
    /\ generateFileName t documentData = Returned fileName
    /\ getStorageFolderPath t = Returned folderPath
    /\ storePDF pdfBytes fileName folderPath w2 = (Returned (Some pdfUrl), w3).

(** The pipeline of [processItem item] from [w], by the step functions
    themselves: [pipeline_run item w steps ok wk] when [steps] are the
    steps taken, each in the world that the one before left and only after
    that one succeeded, [ok] tells whether the last one succeeded too, and
    [wk] is the world that it left. *)
Inductive pipeline_run `{Host} (item : value) (w : World)
  : list Step -> bool -> World -> Prop :=
| stops_at_normalize error :
    normalizeDocumentType (prop "type" item) = Raised error ->
    pipeline_run item w [StepNormalize] false
      (record_event (Enter StepNormalize) w)
| stops_at_fetch t out w1 :
    normalizeDocumentType (prop "type" item) = Returned t ->
    fetchDocumentWithRelations t (prop "id" item)
      (record_event (Enter StepNormalize) w) = (out, w1) ->
    (forall documentData, out <> Returned (Some documentData)) ->
    pipeline_run item w [StepNormalize; StepFetch] false w1
| stops_at_generate t documentData w1 w2 :
    fetched item w t documentData w1 ->
    generatePDF t documentData w1 = (Returned None, w2) ->
    pipeline_run item w [StepNormalize; StepFetch; StepGenerate] false w2
| stops_at_naming t documentData pdfBytes w2 :
    generated item w t documentData pdfBytes w2 ->
    (forall fileName folderPath,
       ~ (generateFileName t documentData = Returned fileName
          /\ getStorageFolderPath t = Returned folderPath)) ->
    pipeline_run item w [StepNormalize; StepFetch; StepGenerate] false w2
| stops_at_store t documentData pdfBytes w2 fileName folderPath w3 :
    generated item w t documentData pdfBytes w2 ->
    generateFileName t documentData = Returned fileName ->
    getStorageFolderPath t = Returned folderPath ->
    storePDF pdfBytes fileName folderPath w2 = (Returned None, w3) ->
    pipeline_run item w [StepNormalize; StepFetch; StepGenerate; StepStore]
      false w3
| stops_at_update t pdfUrl w3 w4 :
    stored item w t pdfUrl w3 ->
    updateDatabaseWithPdfUrl t (prop "id" item) pdfUrl w3
    = (Returned false, w4) ->
    pipeline_run item w pipeline false w4
| completes t pdfUrl w3 w4 :
    stored item w t pdfUrl w3 ->
    updateDatabaseWithPdfUrl t (prop "id" item) pdfUrl w3
    = (Returned true, w4) ->
    pipeline_run item w pipeline true w4.

(** One of the imports that [processItem] calls outside the step functions
    throws [null] (or [undefined]) where the item gets to it. *)
Definition import_throws_null `{Host} (item : value) : Prop :=
  normalizeDocumentType (prop "type" item) = Raised ThrownNull
  \/ exists t,
       normalizeDocumentType (prop "type" item) = Returned t
       /\ ((exists documentData,
              generateFileName t documentData = Raised ThrownNull)
           \/ getStorageFolderPath t = Raised ThrownNull).

(** What a run of [processItem] from [w] comes to, [out] being what it
    returned or threw and [w'] the world it left. *)
Definition item_run `{Host} (item : value) (w : World)
    (out : outcome BatchPDFItemResult) (w' : World) : Prop :=
  exists steps ok wk evs,
    pipeline_run item w steps ok wk
    /\ trace wk = trace w ++ evs
    /\ steps_of evs = steps
    /\ (w' = wk \/ w' = record_event ItemError wk)
    /\ match out with
       | Returned r =>
           id r = prop "id" item
           /\ printable (prop "id" item) = true
           /\ result_invariant r
           /\ success r = ok
           /\ (success r = true -> stored_and_linked item w w' r)
       | Raised e =>
           ok = false
           /\ (exists message, e = Exn (Thrown message))
           /\ (printable (prop "id" item) = false \/ import_throws_null item)
       end.

(** The world as a request leaves it when it met no fault and wrote nothing. *)
Definition after_request (e : Event) (w : World) : World :=
  snd (take_fault (record_event e w)).

(** [w'] comes from [w] by requests that only read, [evs] being what they
    logged. *)
Definition reads (w w' : World) (evs : list Event) : Prop :=
  tables w' = tables w /\ bucket w' = bucket w
  /\ trace w' = trace w ++ evs /\ Forall is_select evs.

(** A computation that neither throws nor writes, and returns a [P]. *)
Definition reading {A} (P : A -> Prop) (m : M A) : Prop :=
  forall w, exists a w' evs, m w = (Returned a, w') /\ P a /\ reads w w' evs.

Abbreviation any := (fun _ => True).

(** A computation that does not write: it returns a [P], or it throws. *)
Definition peeking {A} (P : A -> Prop) (m : M A) : Prop :=
  forall w, exists out w' evs,
    m w = (out, w') /\ reads w w' evs
    /\ match out with Returned a => P a | Raised _ => True end.

(** *** Vocabulary of the further properties *)

(** The fault that the next request will meet. *)
Definition next_fault (w : World) : option string :=
  match faults w with
  | [] => None
  | f :: _ => f
  end.

Definition nullish (v : value) : Prop := v = VUndefined \/ v = VNull.

(** The property under which [fetchDocumentWithRelations] puts the lines. *)
Definition lines_key (t : DocumentType) : string :=
  match t with
  | INVOICE => "invoice_lines"
  | ESTIMATE => "estimate_lines"
  | _ => "products"
  end.

(** The properties under which it puts the additional relations. *)
Definition relation_names (config : DocumentConfig) : list string :=
  match additionalRelations config with
  | Some relations =>
      map (fun relation => replace_first "gl_" "" (rel_tableName relation))
        relations
  | None => []
  end.

(** The document of type [t] with id [documentId] can be read in [w]: the
    type is configured, the next request meets no fault, and its table has
    exactly one row with that id. *)
Definition found `{Host} (t : DocumentType) (documentId : value) (w : World)
  : Prop :=
  exists config rows row,
    documentTypeConfig t = Some config
    /\ next_fault w = None
    /\ tables w !! tableName config = Some rows
    /\ List.filter (row_matches "id" documentId) rows = [row].

(** The account reference of the document, where it can be read, converts
    to a string. *)
Definition printable_account `{Host} (t : DocumentType) (documentId : value)
    (w : World) : Prop :=
  forall config rows row,
    documentTypeConfig t = Some config ->
    tables w !! tableName config = Some rows ->
    List.filter (row_matches "id" documentId) rows = [row] ->
    printable (obj_get (accountRefField config) row) = true.

(** The id that [generatePDF] prints in its log line. *)
Definition logged_id (data : value) : value :=
  or_else (or_else (prop "id" data) (prop "glide_row_id" data))
    (VStr "unknown").

(** An item whose id and type convert to strings and for which no import
    throws [null]. *)
Definition ordinary `{Host} (item : value) : Prop :=
  printable (prop "id" item) = true
  /\ printable (prop "type" item) = true
  /\ ~ import_throws_null item.

(** A plain object with a truthy [id] and a truthy [type]. *)
Definition has_id_and_type (item : value) : Prop :=
  exists fields,
    item = VObj fields
    /\ truthy (obj_get "id" fields) = true
    /\ truthy (obj_get "type" fields) = true.

(** The type name that the generator stub writes into the PDF. *)
Definition pdf_label (t : DocumentType) : option string :=
  match t with
  | INVOICE => Some "INVOICE"
  | PURCHASE_ORDER => Some "PURCHASE_ORDER"
  | ESTIMATE => Some "ESTIMATE"
  | OtherType _ => None
  end.

Definition uploads (evs : list Event) : nat :=
  length (List.filter (fun e => match e with StorageUpload _ => true | _ => false end)
            evs).

Definition updates (evs : list Event) : nat :=
  length (List.filter (fun e => match e with DbUpdate _ _ _ _ => true | _ => false end)
            evs).

Definition requests (evs : list Event) : nat :=
  length (List.filter (fun e => match e with
                              | DbSelect _ _ _ | StorageUpload _
                              | DbUpdate _ _ _ _ => true
                              | _ => false
                              end) evs).

(** The line that the handler adds to [errors] for a failed result. *)
Definition error_line `{Host} (r : BatchPDFItemResult) : string :=
  "Error processing " +:+ ToString (type r) +:+ " " +:+ ToString (id r)
  +:+ ": " +:+ error r.

(** The results, in order, of the well-formed items that failed. *)
Definition failed_processed (items : list value)
    (rs : list BatchPDFItemResult) : list BatchPDFItemResult :=
  map snd (List.filter (fun p => well_formed (fst p) && negb (success (snd p)))
             (zip items rs)).

(** ** Lemmas on the model *)

Ltac unfold_monad :=
  unfold mbind, M_bind, mret, M_ret, bind, ret, try_catch, throw, call,
    attempt, enter, log in *;
  cbv beta in *.

Lemma obj_get_set k v o : obj_get k (obj_set k v o) = v.
Proof.
  induction o as [|[k' v'] o IH]; simpl.
  - by rewrite String.eqb_refl.
  - destruct (String.eqb k k') eqn:E; simpl; rewrite ?String.eqb_refl, ?E; done.
Qed.

Lemma str_or_nonempty s d : d <> "" -> str_or s d <> "".
Proof.
  unfold str_or. destruct (String.eqb s "") eqn:E; [done|].
  intros _ ->. by rewrite String.eqb_refl in E.
Qed.

Lemma append_nonempty a b : a <> "" -> a +:+ b <> "".
Proof. destruct a; [done|]. simpl. discriminate. Qed.

Lemma new_events_app w w' evs :
  trace w' = trace w ++ evs -> new_events w w' = evs.
Proof. unfold new_events. intros ->. by rewrite drop_app_length. Qed.

Lemma steps_of_app a b : steps_of (a ++ b) = steps_of a ++ steps_of b.
Proof. apply omap_app. Qed.

Lemma steps_of_enter s evs : steps_of (Enter s :: evs) = s :: steps_of evs.
Proof. done. Qed.

Lemma steps_of_selects evs : Forall is_select evs -> steps_of evs = [].
Proof.
  induction 1 as [|e evs He _ IH]; [done|].
  destruct e; done.
Qed.

Lemma steps_of_requests evs : Forall is_request evs -> steps_of evs = [].
Proof.
  induction 1 as [|e evs He _ IH]; [done|].
  destruct e; done.
Qed.

Lemma selects_not_write evs :
  Forall is_select evs -> Forall (fun e => ~ is_write e) evs.
Proof. intros F. eapply Forall_impl; [exact F|]. intros []; cbn; tauto. Qed.

Lemma reads_refl w : reads w w [].
Proof. unfold reads. by rewrite app_nil_r. Qed.

Lemma reads_trans w w1 w2 e1 e2 :
  reads w w1 e1 -> reads w1 w2 e2 -> reads w w2 (e1 ++ e2).
Proof.
  intros (T1 & B1 & L1 & F1) (T2 & B2 & L2 & F2). unfold reads.
  rewrite T2, B2, L2, L1, app_assoc, Forall_app. auto.
Qed.

Lemma after_request_tables e w : tables (after_request e w) = tables w.
Proof. unfold after_request, take_fault. simpl. by destruct (faults w). Qed.

Lemma after_request_bucket e w : bucket (after_request e w) = bucket w.
Proof. unfold after_request, take_fault. simpl. by destruct (faults w). Qed.

Lemma after_request_trace e w : trace (after_request e w) = trace w ++ [e].
Proof. unfold after_request, take_fault. simpl. by destruct (faults w). Qed.

Lemma reads_after_select table column v w :
  reads w (after_request (DbSelect table column v) w) [DbSelect table column v].
Proof.
  unfold reads.
  rewrite after_request_tables, after_request_bucket, after_request_trace.
  repeat split. by constructor.
Qed.

Ltac list_norm :=
  repeat (progress (rewrite <- ?app_assoc, ?app_nil_r; simpl)).

Section Facts.
Context `{Host}.

Lemma bind_run {A B} (m : M A) (k : A -> M B) w r w1 :
  m w = (r, w1) ->
  (m ≫= k) w = match r with
                | Returned a => k a w1
                | Raised e => (Raised e, w1)
                end.
Proof. unfold_monad. intros ->. by destruct r. Qed.

Lemma try_run {A} (body : M A) (handler : exception -> M A) w r w1 :
  body w = (r, w1) ->
  try_catch body handler w = match r with
                             | Returned a => (Returned a, w1)
                             | Raised e => handler e w1
                             end.
Proof. unfold_monad. intros ->. by destruct r. Qed.

Lemma attempt_bind {A B} (m : M A) (k : outcome A -> M B) w r w1 :
  m w = (r, w1) -> (attempt m ≫= k) w = k r w1.
Proof. unfold_monad. by intros ->. Qed.

Lemma ret_bind {A B} (a : A) (k : A -> M B) w : (mret a ≫= k) w = k a w.
Proof. done. Qed.

Lemma throw_bind {A B} e (k : A -> M B) w :
  (throw e ≫= k) w = (Raised e, w).
Proof. done. Qed.

Lemma log_bind {B} e (k : unit -> M B) w :
  (log e ≫= k) w = k tt (record_event e w).
Proof. done. Qed.

Lemma call_bind {A B} (r : outcome A) (k : A -> M B) w :
  (call r ≫= k) w = match r with
                     | Returned a => k a w
                     | Raised e => (Raised e, w)
                     end.
Proof. by destruct r. Qed.

Lemma template_printable v :
  printable v = true -> template v = Returned (ToString v).
Proof. unfold template. by intros ->. Qed.

Lemma template_unprintable v :
  printable v = false -> template v = Raised (Exn (Thrown ToPrimitive_message)).
Proof. unfold template. by intros ->. Qed.

Lemma reading_ret {A} (P : A -> Prop) (a : A) : P a -> reading P (mret a).
Proof. intros Pa w. exists a, w, []. split; [done|]. split; [done|apply reads_refl]. Qed.

Lemma reading_bind {A B} (P : A -> Prop) (Q : B -> Prop) (m : M A)
    (k : A -> M B) :
  reading P m -> (forall a, P a -> reading Q (k a)) -> reading Q (m ≫= k).
Proof.
  intros Hm Hk w. destruct (Hm w) as (a & w1 & e1 & E1 & Pa & R1).
  destruct (Hk a Pa w1) as (b & w2 & e2 & E2 & Qb & R2).
  exists b, w2, (e1 ++ e2). rewrite (bind_run _ _ _ _ _ E1), E2.
  split; [done|]. split; [done|]. by eapply reads_trans.
Qed.

Lemma reading_peeking {A} (P : A -> Prop) (m : M A) :
  reading P m -> peeking P m.
Proof.
  intros Hm w. destruct (Hm w) as (a & w' & evs & E & Pa & R).
  by exists (Returned a), w', evs.
Qed.

Lemma peeking_bind {A B} (P : A -> Prop) (Q : B -> Prop) (m : M A)
    (k : A -> M B) :
  peeking P m -> (forall a, P a -> peeking Q (k a)) -> peeking Q (m ≫= k).
Proof.
  intros Hm Hk w. destruct (Hm w) as (out & w1 & e1 & E1 & R1 & Pa).
  rewrite (bind_run _ _ _ _ _ E1). destruct out as [a|e].
  - destruct (Hk a Pa w1) as (out & w2 & e2 & E2 & R2 & Qb).
    exists out, w2, (e1 ++ e2). split; [done|]. split; [|done].
    by eapply reads_trans.
  - by exists (Raised e), w1, e1.
Qed.

Lemma peeking_call {A} (r : outcome A) : peeking any (call r).
Proof.
  intros w. exists r, w, []. split; [done|]. split; [apply reads_refl|].
  by destruct r.
Qed.

(** A select answers with the matching rows of the table as it stands. *)
Lemma db_select_run table column v w :
  exists r,
    db_select table column v w
    = (Returned r, after_request (DbSelect table column v) w)
    /\ forall rows, r = SdkData rows ->
         exists all, tables w !! table = Some all
                     /\ rows = List.filter (row_matches column v) all.
Proof.
  unfold db_select, after_request.
  destruct (take_fault _) as [fault w'] eqn:E. simpl.
  assert (tables w' = tables w) as T.
  { change w' with (snd (fault, w')). rewrite <- E.
    apply (after_request_tables (DbSelect table column v)). }
  destruct fault as [msg|].
  - eexists. split; [done|]. discriminate.
  - rewrite T. destruct (tables w !! table) as [all|] eqn:L.
    + eexists. split; [done|]. intros rows [= <-]. eauto.
    + eexists. split; [done|]. discriminate.
Qed.

Lemma reading_select table column v : reading any (db_select table column v).
Proof.
  intros w. destruct (db_select_run table column v w) as (r & E & _).
  eexists _, _, _. split; [exact E|]. split; [done|]. apply reads_after_select.
Qed.

Lemma reading_maybeSingle q : reading any q -> reading any (maybeSingle q).
Proof.
  intros Hq. unfold maybeSingle. eapply reading_bind; [done|].
  intros r _. by apply reading_ret.
Qed.

Lemma reading_attach_products lines : reading any (attach_products lines).
Proof.
  induction lines as [|line rest IH]; simpl.
  - by apply reading_ret.
  - eapply (reading_bind any).
    + destruct (truthy _).
      * eapply reading_bind; [|intros; by apply reading_ret].
        apply reading_maybeSingle, reading_select.
      * by apply reading_ret.
    + intros line' _. eapply reading_bind; [done|]. intros; by apply reading_ret.
Qed.

Lemma reading_fetch_additional relations glide acc :
  reading any (fetch_additional relations glide acc).
Proof.
  revert acc. induction relations as [|relation rest IH]; intros acc; simpl.
  - by apply reading_ret.
  - eapply reading_bind; [apply reading_select|]. intros r _. apply IH.
Qed.

Lemma reading_fetch_lines documentType config documentData :
  reading any (fetch_lines documentType config documentData).
Proof.
  unfold fetch_lines.
  destruct (linesTableName config) as [linesTable|]; [|by apply reading_ret].
  destruct (String.eqb linesTable ""); [by apply reading_ret|].
  destruct documentType;
    (eapply reading_bind; [apply reading_select|]; intros [msg|lines] _;
     try (by apply reading_ret); apply reading_attach_products).
Qed.

Lemma maybeSingle_run q w r w1 :
  q w = (Returned r, w1) ->
  exists r', maybeSingle q w = (Returned r', w1)
             /\ forall row, r' = SdkData (Some row) -> r = SdkData [row].
Proof.
  intros E. unfold maybeSingle. rewrite (bind_run _ _ _ _ _ E).
  eexists. split; [done|].
  intros row. destruct r as [msg|[|row' [|]]]; try discriminate.
  by intros [= ->].
Qed.

Ltac solve_reading :=
  repeat first
    [ apply reading_select
    | apply reading_maybeSingle
    | apply reading_attach_products
    | apply reading_fetch_additional
    | apply reading_fetch_lines
    | apply reading_ret; first [done | by eexists]
    | eapply (reading_bind any); [|intros ? _]
    | match goal with
      | |- reading _ (if ?b then _ else _) => destruct b
      | |- reading _ (match ?x with _ => _ end) => destruct x
      end ].

Ltac run_monad :=
  repeat first
    [ rewrite ret_bind | rewrite throw_bind | rewrite call_bind
    | rewrite log_bind | progress cbv beta iota ].

(** The account lookup of [fetchDocumentWithRelations] only reads; it
    throws when the warning about a failed lookup cannot print the
    reference. *)
Lemma peeking_account accountRowId :
  peeking (fun a => a = VNull \/ exists x, a = VObj x)
    (if truthy accountRowId then
       a ← maybeSingle (db_select "gl_accounts" "glide_row_id" accountRowId);
       match a with
       | SdkError _ => call (template accountRowId);; mret VNull
       | SdkData (Some account) => mret (VObj account)
       | SdkData None => mret VNull
       end
     else mret VNull).
Proof.
  destruct (truthy accountRowId);
    [|apply reading_peeking, reading_ret; by left].
  eapply (peeking_bind any);
    [apply reading_peeking, reading_maybeSingle, reading_select|].
  intros [msg|[account|]] _.
  - eapply (peeking_bind any); [apply peeking_call|].
    intros _ _. apply reading_peeking, reading_ret. by left.
  - apply reading_peeking, reading_ret. eauto.
  - apply reading_peeking, reading_ret. by left.
Qed.

(** [fetchDocumentWithRelations] only reads.  It throws exactly when the
    id cannot be converted to a string, and then before any request; else
    it logs its failure exactly when it returns [null], and a document it
    returns was the one row with that id in the table of its type. *)
Lemma fetchDocumentWithRelations_run t documentId w :
  exists out w' sel,
    fetchDocumentWithRelations t documentId w = (out, w')
    /\ tables w' = tables w /\ bucket w' = bucket w
    /\ Forall is_select sel
    /\ match out with
       | Returned o =>
           printable documentId = true
           /\ trace w' = trace w ++ Enter StepFetch :: sel
                          ++ match o with
                             | Some _ => []
                             | None => [StepError StepFetch]
                             end
           /\ forall doc, o = Some doc ->
                exists config rows row,
                  documentTypeConfig t = Some config
                  /\ tables w !! tableName config = Some rows
                  /\ List.filter (row_matches "id" documentId) rows = [row]
       | Raised e =>
           printable documentId = false
           /\ e = Exn (Thrown ToPrimitive_message)
           /\ sel = []
           /\ trace w' = trace w ++ [Enter StepFetch]
       end.
Proof.
  unfold fetchDocumentWithRelations, enter. rewrite log_bind.
  set (w0 := record_event (Enter StepFetch) w).
  unfold try_catch.
  destruct (printable documentId) eqn:P.
  2:{ (* the id cannot be printed: the log line or the report throws *)
      exists (Raised (Exn (Thrown ToPrimitive_message))), w0, [].
      split; [|by repeat split].
      destruct (documentTypeConfig t) as [config|];
        repeat first [ rewrite ret_bind | rewrite throw_bind | rewrite call_bind
                     | rewrite (template_unprintable _ P)
                     | progress cbv beta iota ];
        done. }
  destruct (documentTypeConfig t) as [config|] eqn:C.
  2:{ rewrite (template_printable _ P). run_monad.
      exists (Returned None), (record_event (StepError StepFetch) w0), [].
      repeat split; try done. simpl. by rewrite <- app_assoc. }
  rewrite (template_printable _ P), ret_bind, call_bind. cbv beta iota.
  destruct (db_select_run (tableName config) "id" documentId w0)
    as (r & E & Hrows).
  destruct (maybeSingle_run _ _ _ _ E) as (r' & E' & Hrow).
  set (ev := DbSelect (tableName config) "id" documentId) in *.
  set (w1 := after_request ev w0) in *.
  assert (tables w1 = tables w) as T1
    by (unfold w1; by rewrite after_request_tables).
  assert (bucket w1 = bucket w) as B1
    by (unfold w1; by rewrite after_request_bucket).
  assert (trace w1 = trace w ++ [Enter StepFetch; ev]) as L1.
  { unfold w1. rewrite after_request_trace. simpl. by rewrite <- app_assoc. }
  rewrite (bind_run _ _ _ _ _ E').
  assert (forall w2 sel,
            reads w1 w2 sel ->
            let w3 := record_event (StepError StepFetch) w2 in
            tables w3 = tables w /\ bucket w3 = bucket w
            /\ Forall is_select (ev :: sel)
            /\ printable documentId = true
            /\ trace w3 = trace w ++ Enter StepFetch :: (ev :: sel)
                           ++ [StepError StepFetch]
            /\ forall doc : value, @None value = Some doc ->
                 exists config rows row,
                   documentTypeConfig t = Some config
                   /\ tables w !! tableName config = Some rows
                   /\ List.filter (row_matches "id" documentId) rows = [row])
    as Failed.
  { intros w2 sel (T2 & B2 & L2 & F2). simpl.
    split; [congruence|]. split; [congruence|].
    split; [by constructor|]. split; [done|]. split; [|done].
    rewrite L2, L1. by list_norm. }
  destruct r' as [msg|[row|]].
  - run_monad.
    exists (Returned None), (record_event (StepError StepFetch) w1), [ev].
    split; [reflexivity|].
    destruct (Failed w1 [] (reads_refl w1)) as (? & ? & ? & ? & ? & ?).
    by repeat split.
  - rewrite ret_bind.
    lazymatch goal with
    | |- context [ @mbind M _ _ _ ?k ?m w1 ] =>
        assert (peeking is_Some (m ≫= k)) as HR
    end.
    { eapply peeking_bind; [apply peeking_account|].
      intros ? _. apply reading_peeking.
      eapply (reading_bind any); [solve_reading|intros ? _].
      eapply (reading_bind any); [solve_reading|intros ? _].
      solve_reading. }
    destruct (HR w1) as (out & w3 & sel & E2 & R2 & Hout).
    rewrite E2. destruct out as [o|e].
    + destruct Hout as [doc ->]. destruct R2 as (T2 & B2 & L2 & F2).
      exists (Returned (Some doc)), w3, (ev :: sel).
      repeat split; try congruence.
      * by constructor.
      * rewrite L2, L1, app_nil_r. simpl. by rewrite <- app_assoc.
      * intros _ _. destruct (Hrows _ (Hrow _ eq_refl)) as (all & L & Heq).
        exists config, all, row. done.
    + run_monad.
      exists (Returned None), (record_event (StepError StepFetch) w3),
        (ev :: sel).
      split; [reflexivity|].
      destruct (Failed w3 sel R2) as (? & ? & ? & ? & ? & ?).
      by repeat split.
  - run_monad.
    exists (Returned None), (record_event (StepError StepFetch) w1), [ev].
    split; [reflexivity|].
    destruct (Failed w1 [] (reads_refl w1)) as (? & ? & ? & ? & ? & ?).
    by repeat split.
Qed.

(** [generatePDF] never throws and touches nothing; it logs its failure
    exactly when it returns [null]. *)
Lemma generatePDF_run t data w :
  exists o w',
    generatePDF t data w = (Returned o, w')
    /\ tables w' = tables w /\ bucket w' = bucket w
    /\ trace w' = trace w ++ Enter StepGenerate
                   :: match o with Some _ => [] | None => [StepError StepGenerate] end.
Proof.
  unfold generatePDF, loadPdfGenerator, mockGeneratePdf, template.
  unfold_monad. simpl.
  repeat case_match; simplify_eq;
    (eexists _, _; split; [reflexivity|]; simpl;
     rewrite <- ?app_assoc; done).
Qed.

(** [storePDF] never throws and leaves the tables alone; a URL it returns
    is the non-empty public URL of the path, where the content now is. *)
Lemma storePDF_run pdfBytes fileName folderPath w :
  let path := folderPath +:+ "/" +:+ fileName in
  exists o w',
    storePDF pdfBytes fileName folderPath w = (Returned o, w')
    /\ tables w' = tables w
    /\ trace w' = trace w ++ [Enter StepStore; StorageUpload path]
                   ++ match o with Some _ => [] | None => [StepError StepStore] end
    /\ forall pdfUrl, o = Some pdfUrl ->
         pdfUrl <> "" /\ storage_publicUrl path = Some pdfUrl
         /\ bucket w' !! path = Some pdfBytes.
Proof.
  intros path. unfold storePDF, storage_upload, take_fault. fold path.
  unfold_monad. simpl.
  repeat case_match; simplify_eq;
    (eexists _, _; split; [reflexivity|]; simpl;
     rewrite <- ?app_assoc; repeat split; try done).
  all: try apply lookup_insert_eq.
  all: simplify_eq; intros ->; by rewrite String.eqb_refl in *.
Qed.

(** [updateDatabaseWithPdfUrl] never throws and leaves the bucket alone;
    when it returns [true] the rows with that id in the table of the type
    carry the URL. *)
Lemma updateDatabaseWithPdfUrl_run t documentId pdfUrl w :
  exists (b : bool) w' reqs,
    updateDatabaseWithPdfUrl t documentId pdfUrl w = (Returned b, w')
    /\ bucket w' = bucket w
    /\ Forall is_request reqs
    /\ trace w' = trace w ++ Enter StepUpdate :: reqs
                   ++ (if b then [] else [StepError StepUpdate])
    /\ (b = true ->
        exists config field rows,
          documentTypeConfig t = Some config
          /\ getPdfUrlField t = Returned field
          /\ tables w !! tableName config = Some rows
          /\ tables w'
             = <[tableName config := map (write_url field pdfUrl documentId) rows]>
                 (tables w)).
Proof.
  unfold updateDatabaseWithPdfUrl, db_update, take_fault.
  unfold_monad. simpl.
  destruct (getPdfUrlField t) as [field|e] eqn:F.
  2:{ eexists false, _, []. split; [reflexivity|]. simpl.
      rewrite <- app_assoc. by repeat split. }
  destruct (documentTypeConfig t) as [config|] eqn:C.
  2:{ eexists false, _, []. split; [reflexivity|]. simpl.
      rewrite <- app_assoc. by repeat split. }
  set (ev := DbUpdate (tableName config) field pdfUrl documentId).
  repeat case_match; simplify_eq;
    (eexists _, _, [ev]; split; [reflexivity|]; simpl;
     rewrite <- ?app_assoc; repeat split; try done;
     try (by repeat constructor)).
  all: intros _; eexists config, field, _; by repeat split.
Qed.

Lemma processItem_unfold item w :
  processItem item w
  = match normalizeDocumentType (prop "type" item) with
    | Raised error =>
        processItem_catch item
          {| id := prop "id" item; type := prop "type" item; success := false;
             error := ""; url := None |} error
    | Returned normalizedType =>
        let result :=
          {| id := prop "id" item;
             type := VStr (DocumentType_value normalizedType);
             success := false; error := ""; url := None |} in
        try_catch (processItem_steps item normalizedType result)
          (processItem_catch item result)
    end (record_event (Enter StepNormalize) w).
Proof. unfold processItem. unfold_monad. simpl. by destruct (normalizeDocumentType _). Qed.

(** The [catch] of [processItem]: it throws when the id cannot be printed,
    and, after its report, when the exception is [null]. *)
Lemma processItem_catch_run item result error w :
  processItem_catch item result error w
  = if printable (prop "id" item) then
      match error with
      | Exn e =>
          (Returned (with_error (str_or (message_of e) "Unknown error") result),
           record_event ItemError w)
      | ThrownNull =>
          (Raised (Exn (Thrown TypeError_message)), record_event ItemError w)
      end
    else (Raised (Exn (Thrown ToPrimitive_message)), w).
Proof.
  unfold processItem_catch, template.
  destruct (printable (prop "id" item)), error; done.
Qed.

Lemma failure_message_run prefix t item w :
  printable (prop "id" item) = true ->
  failure_message prefix t item w
  = (Returned (prefix +:+ DocumentType_value t +:+ " "
               +:+ ToString (prop "id" item)), w).
Proof. intros P. unfold failure_message. by rewrite (template_printable _ P). Qed.

Lemma failed_invariant msg r :
  success r = false -> url r = None -> msg <> "" ->
  result_invariant (with_error msg r).
Proof.
  intros S U M. split; simpl; [|done]. rewrite S, U. split; [done|].
  by intros [? [=]].
Qed.

Lemma written_row field pdfUrl documentId rows row :
  List.filter (row_matches "id" documentId) rows = [row] ->
  obj_get field (write_url field pdfUrl documentId row) = VStr pdfUrl.
Proof.
  intros F. assert (List.In row (List.filter (row_matches "id" documentId) rows))
    as I by (rewrite F; by left).
  apply List.filter_In in I as [_ I]. unfold write_url. rewrite I.
  apply obj_get_set.
Qed.

Ltac solve_steps :=
  rewrite ?steps_of_app, ?steps_of_enter;
  repeat match goal with
         | F : Forall is_select ?l |- _ => rewrite (steps_of_selects l F)
         | F : Forall is_request ?l |- _ => rewrite (steps_of_requests l F)
         end;
  done.

(** A run that ends with a failure result. *)
Lemma failed_item_run item w w' wk steps evs msg result :
  pipeline_run item w steps false wk ->
  trace wk = trace w ++ evs -> steps_of evs = steps ->
  w' = wk \/ w' = record_event ItemError wk ->
  id result = prop "id" item -> printable (prop "id" item) = true ->
  success result = false -> url result = None -> msg <> "" ->
  item_run item w (Returned (with_error msg result)) w'.
Proof.
  intros R L St W I P S U M. exists steps, false, wk, evs.
  split; [done|]. split; [done|]. split; [done|]. split; [done|].
  split; [done|]. split; [done|]. split; [by apply failed_invariant|].
  simpl. by rewrite S.
Qed.

(** A run that ends in the [catch] of [processItem]. *)
Lemma caught_item_run item w wk steps evs result error :
  pipeline_run item w steps false wk ->
  trace wk = trace w ++ evs -> steps_of evs = steps ->
  id result = prop "id" item -> success result = false -> url result = None ->
  (error = ThrownNull -> import_throws_null item) ->
  exists out w',
    processItem_catch item result error wk = (out, w')
    /\ item_run item w out w'.
Proof.
  intros R L St I S U N. rewrite processItem_catch_run.
  destruct (printable (prop "id" item)) eqn:P; [destruct error as [e|]|].
  - eexists _, _. split; [reflexivity|].
    eapply failed_item_run; eauto. by apply str_or_nonempty.
  - eexists _, _. split; [reflexivity|]. exists steps, false, wk, evs.
    repeat split; eauto.
  - eexists _, _. split; [reflexivity|]. exists steps, false, wk, evs.
    repeat split; eauto.
Qed.

Ltac unfold_bodies :=
  repeat match goal with b := _ : list Event |- _ => subst b end.

Ltac solve_trace :=
  unfold_bodies; simpl;
  repeat match goal with L : trace _ = _ |- _ => rewrite L; clear L end;
  by list_norm.

Ltac failed_leaf run evs :=
  eexists _, _; split; [reflexivity|];
  apply (failed_item_run _ _ _ _ _ evs _ _ run);
  [ solve_trace | unfold_bodies; solve_steps | by left | done | done | done
  | done | by apply append_nonempty ].

(** Everything a run of [processItem] does. *)
Lemma processItem_run item w :
  exists out w', processItem item w = (out, w') /\ item_run item w out w'.
Proof.
  rewrite processItem_unfold.
  set (w0 := record_event (Enter StepNormalize) w).
  assert (trace w0 = trace w ++ [Enter StepNormalize]) as L0 by done.
  destruct (normalizeDocumentType (prop "type" item)) as [t|e] eqn:N.
  2:{ (* the normalization throws *)
      apply (caught_item_run _ _ _ _ [Enter StepNormalize] _ _
               (stops_at_normalize item w e N)); try done.
      intros ->. by left. }
  cbv zeta. set (result := {| id := prop "id" item |}).
  unfold try_catch, processItem_steps.
  (* 2. fetch *)
  destruct (fetchDocumentWithRelations_run t (prop "id" item) w0)
    as (fetch & w1 & sel & E1 & T1 & B1 & Fsel & Hfetch).
  rewrite (bind_run _ _ _ _ _ E1).
  pose (body2 := [Enter StepNormalize; Enter StepFetch] ++ sel).
  destruct fetch as [[documentData|]|e].
  3:{ (* the fetch throws: the id cannot be printed *)
      destruct Hfetch as (P & -> & -> & L1).
      apply (caught_item_run _ _ _ _ body2 _ _
               (stops_at_fetch item w t _ w1 N E1 ltac:(done))); try done.
      solve_trace. }
  2:{ destruct Hfetch as (P & L1 & _).
      rewrite (bind_run _ _ _ _ _ (failure_message_run _ _ _ _ P)).
      failed_leaf (stops_at_fetch item w t _ w1 N E1 ltac:(done))
        (body2 ++ [StepError StepFetch]). }
  destruct Hfetch as (P & L1 & Hdoc).
  destruct (Hdoc _ eq_refl) as (config & rows & row & C & Trows & Frow).
  assert (fetched item w t documentData w1) as Stage1 by done.
  (* 3. generate *)
  destruct (generatePDF_run t documentData w1)
    as (pdf & w2 & E2 & T2 & B2 & L2).
  rewrite (bind_run _ _ _ _ _ E2).
  pose (body3 := body2 ++ [Enter StepGenerate]).
  destruct pdf as [pdfBytes|].
  2:{ rewrite (bind_run _ _ _ _ _ (failure_message_run _ _ _ _ P)).
      failed_leaf (stops_at_generate item w t _ w1 w2 Stage1 E2)
        (body3 ++ [StepError StepGenerate]). }
  assert (generated item w t documentData pdfBytes w2) as Stage2
    by (by exists w1).
  (* 4. file name and folder *)
  assert (forall error : exception,
            (forall fileName folderPath,
               ~ (generateFileName t documentData = Returned fileName
                  /\ getStorageFolderPath t = Returned folderPath)) ->
            (error = ThrownNull -> import_throws_null item) ->
            exists out w',
              processItem_catch item result error w2 = (out, w')
              /\ item_run item w out w') as Caught.
  { intros error Hnames Hnull.
    apply (caught_item_run _ _ _ _ body3 _ _
             (stops_at_naming item w t _ _ w2 Stage2 Hnames)); try done.
    - solve_trace.
    - unfold_bodies; solve_steps. }
  rewrite call_bind.
  destruct (generateFileName t documentData) as [fileName|e] eqn:Nf.
  2:{ apply Caught; [by intros ? ? [? _]|].
      intros ->. right. exists t. split; [done|]. left. by exists documentData. }
  rewrite call_bind.
  destruct (getStorageFolderPath t) as [folderPath|e] eqn:Np.
  2:{ apply Caught; [by intros ? ? [_ ?]|].
      intros ->. right. exists t. split; [done|]. by right. }
  clear Caught.
  (* 5. store *)
  destruct (storePDF_run pdfBytes fileName folderPath w2)
    as (store & w3 & E3 & T3 & L3 & Hurl).
  set (path := folderPath +:+ "/" +:+ fileName) in *.
  rewrite (bind_run _ _ _ _ _ E3).
  pose (body4 := body3 ++ [Enter StepStore; StorageUpload path]).
  destruct store as [pdfUrl|].
  2:{ rewrite (bind_run _ _ _ _ _ (failure_message_run _ _ _ _ P)).
      failed_leaf (stops_at_store item w t _ _ w2 _ _ w3 Stage2 Nf Np E3)
        (body4 ++ [StepError StepStore]). }
  destruct (Hurl _ eq_refl) as (Hne & Hpub & Hobj).
  assert (stored item w t pdfUrl w3) as Stage3
    by (by exists documentData, pdfBytes, w2, fileName, folderPath).
  (* 6. update *)
  destruct (updateDatabaseWithPdfUrl_run t (prop "id" item) pdfUrl w3)
    as (updated & w4 & reqs & E4 & B4 & Freqs & L4 & Hupd).
  rewrite (bind_run _ _ _ _ _ E4).
  pose (body5 := body4 ++ Enter StepUpdate :: reqs).
  destruct updated.
  - eexists _, w4. split; [reflexivity|].
    exists pipeline, true, w4, body5.
    split; [exact (completes item w t pdfUrl w3 w4 Stage3 E4)|].
    split; [solve_trace|]. split; [unfold_bodies; solve_steps|].
    split; [by left|]. split; [done|]. split; [done|]. split.
    { split; simpl; [|done]. split; [by eexists|done]. }
    split; [done|]. intros _.
    destruct (Hupd eq_refl) as (config' & field & rows' & C' & Ff & Tr' & Tw).
    assert (config' = config) as -> by congruence.
    assert (rows' = rows) as ->.
    { rewrite T3, T2, T1 in Tr'. congruence. }
    exists pdfUrl, path, pdfBytes, t, config, field, rows, row.
    repeat split; try done.
    + by rewrite B4.
    + rewrite Tw. apply lookup_insert_eq.
    + by eapply written_row.
  - rewrite (bind_run _ _ _ _ _ (failure_message_run _ _ _ _ P)).
    eexists _, _; split; [reflexivity|].
    apply (failed_item_run _ _ _ _ _ (body5 ++ [StepError StepUpdate]) _ _
             (stops_at_update item w t pdfUrl w3 w4 Stage3 E4));
      [ solve_trace | unfold_bodies; solve_steps | by left | done | done
      | done | done | by apply append_nonempty ].
Qed.

Lemma items_processed_app a b :
  items_processed (a ++ b) = items_processed a + items_processed b.
Proof.
  unfold items_processed. by rewrite steps_of_app, List.filter_app, length_app.
Qed.

(** Whatever it comes to, a run of [processItem] enters the normalization
    once. *)
Lemma item_run_processed item w out w' :
  item_run item w out w' ->
  exists evs, trace w' = trace w ++ evs /\ items_processed evs = 1.
Proof.
  intros (steps & ok & wk & evs & R & L & S & W & _).
  assert (items_processed evs = 1) as P.
  { unfold items_processed. rewrite S. by destruct R. }
  destruct W as [-> | ->].
  - by exists evs.
  - exists (evs ++ [ItemError]). simpl. rewrite L, app_assoc.
    split; [done|]. by rewrite items_processed_app, P.
Qed.

Lemma rejected_invariant item msg :
  msg <> "" -> result_invariant (rejected item msg).
Proof. intros M. split; simpl; [|done]. split; [done|]. by intros [? [=]]. Qed.

Lemma or_else_truthy a b : truthy a = true -> or_else a b = a.
Proof. unfold or_else. by intros ->. Qed.

Lemma well_formed_id item :
  invalid_item item = false ->
  or_else (prop "id" item) (VStr "unknown") = prop "id" item.
Proof.
  intros V. apply or_else_truthy. unfold invalid_item in V.
  repeat (apply orb_false_elim in V as [V ?]).
  by destruct (truthy (prop "id" item)).
Qed.

(** The report of a failed result: its line, or the exception of the
    conversion. *)
Lemma error_report_run r w :
  error_report r w
  = (if printable (type r) && printable (id r)
     then Returned ("Error processing " +:+ ToString (type r) +:+ " "
                    +:+ ToString (id r) +:+ ": " +:+ error r)
     else Raised (Exn (Thrown ToPrimitive_message)), w).
Proof.
  unfold error_report, template.
  by destruct (printable (type r)), (printable (id r)).
Qed.

Lemma process_one_catch_run item rs es message w :
  process_one_catch item rs es (Exn (Thrown message)) w
  = (Returned (rs ++ [rejected item (str_or message "Critical processing error")],
               es ++ ["Critical error: " +:+ message]), w).
Proof. done. Qed.

Lemma answers_one item r :
  invalid_item item = false ->
  id r = or_else (prop "id" item) (VStr "unknown") -> result_invariant r ->
  answers item [r].
Proof.
  intros V I Inv. split; [by left|]. split; [|congruence].
  apply Forall_cons_2; [by split|]. apply Forall_nil_2.
Qed.

Lemma answers_two item r r' :
  invalid_item item = false ->
  id r = or_else (prop "id" item) (VStr "unknown") -> result_invariant r ->
  id r' = or_else (prop "id" item) (VStr "unknown") -> result_invariant r' ->
  answers item [r; r'].
Proof.
  intros V I Inv I' Inv'. split; [by right|]. split; [|congruence].
  apply Forall_cons_2; [by split|].
  apply Forall_cons_2; [by split|]. apply Forall_nil_2.
Qed.

(** One turn of the loop: it never throws, and adds one result or two. *)
Lemma process_one_run item rs es w :
  exists block es1 w' evs,
    process_one item (rs, es) w = (Returned (rs ++ block, es ++ es1), w')
    /\ answers item block
    /\ trace w' = trace w ++ evs
    /\ items_processed evs = (if invalid_item item then 0 else 1).
Proof.
  unfold process_one.
  destruct (invalid_item item) eqn:V.
  - exists [rejected item "Invalid item format (missing id or type)"], [], w, [].
    rewrite !app_nil_r. split; [done|]. split; [|done].
    split; [by left|]. split; [|done].
    constructor; [|done]. split; [done|by apply rejected_invariant].
  - destruct (processItem_run item w) as (out & w' & E & Hrun).
    destruct (item_run_processed _ _ _ _ Hrun) as (evs & L & P).
    rewrite (attempt_bind _ _ _ _ _ E).
    assert (forall msg,
              result_invariant
                (rejected item (str_or msg "Critical processing error")))
      as Hcatch by (intros msg; by apply rejected_invariant, str_or_nonempty).
    destruct Hrun as (steps & ok & wk & evs' & _ & _ & _ & _ & Hout).
    destruct out as [r|e].
    + destruct Hout as (I & _ & Inv & _).
      rewrite <- (well_formed_id _ V) in I.
      cbv zeta. destruct (success r).
      * exists [r], [], w', evs. rewrite app_nil_r.
        split; [done|]. split; [by apply answers_one|done].
      * rewrite (attempt_bind _ _ _ _ _ (error_report_run r w')).
        destruct (printable (type r) && printable (id r)).
        -- eexists [r], [_], w', evs. split; [reflexivity|].
           split; [by apply answers_one|done].
        -- cbv beta iota. rewrite process_one_catch_run, <- app_assoc.
           eexists [r; _], [_], w', evs.
           split; [reflexivity|]. split; [|done].
           by apply answers_two.
    + destruct Hout as (_ & (message & ->) & _).
      cbv beta iota. rewrite process_one_catch_run.
      eexists [_], [_], w', evs. split; [reflexivity|].
      split; [by apply answers_one|done].
Qed.

(** The loop never throws, and answers every item, in order. *)
Lemma for_each_item_run items rs es w :
  exists blocks es' w' evs,
    for_each_item items (rs, es) w
    = (Returned (rs ++ concat blocks, es ++ es'), w')
    /\ Forall2 answers items blocks
    /\ trace w' = trace w ++ evs
    /\ items_processed evs = length (List.filter well_formed items).
Proof.
  revert rs es w. induction items as [|item rest IH]; intros rs es w; simpl.
  - exists [], [], w, []. by rewrite !app_nil_r.
  - destruct (process_one_run item rs es w)
      as (block & es1 & w1 & ev1 & E1 & A1 & L1 & P1).
    rewrite (bind_run _ _ _ _ _ E1).
    destruct (IH (rs ++ block) (es ++ es1) w1)
      as (blocks & es2 & w2 & ev2 & E2 & A2 & L2 & P2).
    exists (block :: blocks), (es1 ++ es2), w2, (ev1 ++ ev2).
    rewrite E2. simpl. rewrite <- !app_assoc.
    split; [done|]. split; [by constructor|].
    split; [by rewrite L2, L1, <- app_assoc|].
    rewrite items_processed_app, P1, P2. unfold well_formed.
    by destruct (invalid_item item).
Qed.

(** A request that gets past the checks is answered with status 200 and
    the results of each item, in order. *)
Lemma handler_try_run env req items w :
  passes_validation env req items ->
  exists b w' evs blocks,
    handler_try env req w = (Returned {| status := 200; payload := b |}, w')
    /\ results_of b = concat blocks
    /\ Forall2 answers items blocks
    /\ trace w' = trace w ++ evs
    /\ items_processed evs = length (List.filter well_formed items).
Proof.
  intros (U & K & parsed & B & R). unfold handler_try.
  rewrite U, K, B. simpl. rewrite call_bind, call_bind, R.
  destruct items as [|item rest].
  - exists (BodyResults []), w, [], []. rewrite app_nil_r. by repeat split.
  - destruct (for_each_item_run (item :: rest) [] [] w)
      as (blocks & es & w' & evs & E & A & L & P).
    rewrite (bind_run _ _ _ _ _ E). simpl.
    eexists (BodyBatch _), w', evs, blocks. split; [reflexivity|].
    by repeat split.
Qed.

Lemma answers_invariant items blocks :
  Forall2 answers items blocks -> Forall result_invariant (concat blocks).
Proof.
  induction 1 as [|item block items blocks (_ & A & _) _ IH]; simpl;
    [constructor|].
  apply Forall_app. split; [|done].
  eapply Forall_impl; [exact A|]. by intros r [_ Inv].
Qed.

Lemma handler_unfold env req w :
  method req <> "OPTIONS" ->
  handler env req w
  = try_catch (handler_try env req)
      (fun error =>
         msg ← call (read_message error);
         mret {| status := 500;
                 payload := BodyFailure (str_or msg "Unknown error") false |})
      w.
Proof.
  intros M. unfold handler.
  destruct (String.eqb (method req) "OPTIONS") eqn:E; [|done].
  by apply String.eqb_eq in E.
Qed.

(** Either the checks of the handler throw an error, leaving the world as
    it was, or the request gets past them with some items. *)
Lemma handler_try_cases env req w :
  (exists e : thrown, handler_try env req w = (Raised (Exn e), w))
  \/ (exists items, passes_validation env req items).
Proof.
  unfold handler_try, passes_validation.
  destruct (env_missing (SUPABASE_URL env)); [left; by eexists|].
  destruct (env_missing (SUPABASE_SERVICE_ROLE_KEY env)); [left; by eexists|].
  simpl. destruct (body req) as [[parsed|e]|]; [|left; by eexists..].
  rewrite call_bind. simpl. rewrite call_bind.
  destruct (read_items parsed) as [items|e] eqn:R.
  2:{ left. unfold read_items in R. destruct parsed; simplify_eq; by eexists. }
  destruct items as [| | | | |items|]; try (left; by eexists).
  right. exists items. split; [done|]. split; [done|]. by exists parsed.
Qed.

End Facts.

(** ** The properties *)

Section Claims.
Context `{Host}.

(** C1 (the code departs from it).  The claim: for a non-empty [items],
    the batch-level [success] is false exactly when some result has
    [success = false].  The handler decides [success] from its [errors]
    list, and the branch that rejects a malformed item pushes a failure
    result without pushing an error: for [items = [{ id: 'inv-1' }]]
    (no [type]) the response holds one failed result, no [errors], and
    [success: true]. *)
Theorem batch_success_despite_rejected_item w :
  exists r,
    handler service_env (post_items [VObj [("id", VStr "inv-1")]]) w
    = (Returned {| status := 200;
                   payload := BodyBatch {| results := [r]; errors := None;
                                           batch_success := true |} |}, w)
    /\ success r = false
    /\ error r = "Invalid item format (missing id or type)".
Proof. by eexists. Qed.



(** C4.  When [fetchDocumentWithRelations] yields no document,
    [processItem] returns the failure whose message names the type and the
    id, in the world the fetch left: tables and bucket are those of the
    start, and no upload or update was sent. *)
Theorem unresolved_document_writes_nothing item t w w' :
  normalizeDocumentType (prop "type" item) = Returned t ->
  fetchDocumentWithRelations t (prop "id" item)
    (record_event (Enter StepNormalize) w) = (Returned None, w') ->
  processItem item w
  = (Returned {| id := prop "id" item;
                 type := VStr (DocumentType_value t);
                 success := false;
                 error := "Failed to fetch document data for "
                          +:+ DocumentType_value t +:+ " "
                          +:+ ToString (prop "id" item);
                 url := None |}, w')
  /\ tables w' = tables w
  /\ bucket w' = bucket w
  /\ Forall (fun e => ~ is_write e) (new_events w w').
Proof.
  intros N E.
  destruct (fetchDocumentWithRelations_run t (prop "id" item)
              (record_event (Enter StepNormalize) w))
    as (o & w1 & sel & E1 & T1 & B1 & Fsel & Hfetch).
  rewrite E in E1. injection E1 as <- <-.
  destruct Hfetch as (P & L1 & _).
  rewrite processItem_unfold, N. cbv zeta.
  unfold try_catch, processItem_steps. rewrite (bind_run _ _ _ _ _ E).
  rewrite (bind_run _ _ _ _ _ (failure_message_run _ _ _ _ P)).
  split; [done|]. split; [done|]. split; [done|].
  rewrite (new_events_app w w'
             (Enter StepNormalize :: Enter StepFetch
              :: sel ++ [StepError StepFetch]))
    by (rewrite L1; simpl; by list_norm).
  repeat (constructor; [cbn; tauto|]).
  apply Forall_app. split; [by apply selects_not_write|].
  by repeat (constructor; [cbn; tauto|]).
Qed.

(** C5.  A malformed item -- falsy, not an object, or with a missing
    (falsy) [id] or [type] -- does not make the handler throw: the
    response holds the results of the items one item after the other (one
    result for an item, or two when the report of its failure throws), and
    those of the malformed item are the one failure 'Invalid item format
    (missing id or type)' with [url] null and with [id] and [type] taken
    from the item when present (truthy), ['unknown'] otherwise; the other
    items are answered as well. *)
Theorem malformed_item_rejected env req items i item w :
  ~ is_preflight req ->
  passes_validation env req items ->
  items !! i = Some item ->
  invalid_item item = true ->
  exists resp w' blocks,
    handler env req w = (Returned resp, w')
    /\ status resp = 200
    /\ results_of (payload resp) = concat blocks
    /\ Forall2 answers items blocks
    /\ blocks !! i
       = Some [ {| id := or_else (prop "id" item) (VStr "unknown");
                   type := or_else (prop "type" item) (VStr "unknown");
                   success := false;
                   error := "Invalid item format (missing id or type)";
                   url := None |} ].
Proof.
  intros P V Hi Hbad. rewrite (handler_unfold _ _ _ P).
  destruct (handler_try_run env req items w V)
    as (b & w' & evs & blocks & E & R & A & _).
  rewrite (try_run _ _ _ _ _ E). eexists _, w', blocks.
  split; [done|]. split; [done|]. split; [done|]. split; [done|].
  destruct (Forall2_lookup_l _ _ _ _ _ A Hi) as (block & Hb & _ & _ & Hrej).
  by rewrite Hb, (Hrej Hbad).
Qed.

(** C6 (the code departs from it).  The claim: an empty [items] array is
    answered by a response of the shape [{ results, errors?, success }]
    with an empty [results] and a [success] that says so.  The early
    return answers [{ results: [] }]: status 200 and an empty [results],
    but no [success] property at all. *)
Theorem empty_items_response_lacks_success w :
  exists b,
    handler service_env (post_items []) w
    = (Returned {| status := 200; payload := b |}, w)
    /\ results_of b = []
    /\ success_of b = None.
Proof. by eexists. Qed.

(** C7.  A request that fails at the top level -- an environment variable
    missing, no body, or a body whose [items] is not an array -- is
    answered by the single failure response: status 500, the message of
    the failure, [success: false], no results, nothing processed. *)
Theorem top_level_failure_response env req msg w :
  ~ is_preflight req ->
  top_level_failure env req msg ->
  handler env req w
  = (Returned {| status := 500; payload := BodyFailure msg false |}, w).
Proof.
  intros P F. rewrite (handler_unfold _ _ _ P). unfold try_catch, handler_try.
  destruct F as [E|E B|parsed items E B R A]; rewrite E; [done|by rewrite B|].
  rewrite B, call_bind. simpl. rewrite call_bind, R.
  destruct items as [| | | | |xs|]; try done. by destruct (A xs).
Qed.

(** C8 (amended).  [processItem] goes through normalization, fetch,
    generation, storing and update in this order, each step in the world
    that the one before left and only after that one succeeded: the steps
    it entered are those of the pipeline run, a prefix of the pipeline.
    When a step fails nothing follows but the report of the [catch] -- no
    later step is entered, no request is sent.  The run then ends with a
    failure result, or -- when the id of the item cannot be converted to a
    string, or an import threw [null] -- with an exception of
    [processItem] itself; a result says [success] exactly when all five
    steps succeeded. *)
Theorem processItem_pipeline_order item w :
  exists out w' steps ok wk,
    processItem item w = (out, w')
    /\ pipeline_run item w steps ok wk
    /\ steps_of (new_events w w') = steps
    /\ steps = take (length steps) pipeline
    /\ (w' = wk \/ w' = record_event ItemError wk)
    /\ match out with
       | Returned r => success r = ok
       | Raised _ =>
           ok = false
           /\ (printable (prop "id" item) = false \/ import_throws_null item)
       end.
Proof.
  destruct (processItem_run item w)
    as (out & w' & E & steps & ok & wk & evs & R & L & S & W & Hout).
  exists out, w', steps, ok, wk. split; [done|]. split; [done|].
  split; [|split; [by destruct R|split; [done|]]].
  - destruct W as [-> | ->].
    + by rewrite (new_events_app _ _ _ L).
    + rewrite (new_events_app w _ (evs ++ [ItemError]))
        by (simpl; by rewrite L, app_assoc).
      by rewrite steps_of_app, S, app_nil_r.
  - destruct out as [r|e]; [apply Hout|].
    destruct Hout as (? & _ & ?). done.
Qed.

(** C9.  The handler always returns a response, and every result in it
    has [success = true] exactly when its [url] is not null, and a
    non-empty [error] when [success = false]. *)
Theorem item_results_invariant env req w :
  exists resp w',
    handler env req w = (Returned resp, w')
    /\ Forall result_invariant (results_of (payload resp)).
Proof.
  unfold handler. destruct (String.eqb (method req) "OPTIONS").
  { eexists _, w. split; [done|]. constructor. }
  unfold try_catch.
  destruct (handler_try_cases env req w) as [[e E]|[items V]].
  - rewrite E. eexists _, w. split; [done|]. constructor.
  - destruct (handler_try_run env req items w V)
      as (b & w' & evs & blocks & E & R & A & _).
    rewrite E. eexists _, w'. split; [done|]. simpl. rewrite R.
    by eapply answers_invariant.
Qed.

(** C10.  A request that gets past the checks is answered with status 200
    whatever happens to its items; a status 500 means that the checks
    failed, and then nothing was processed. *)
Theorem status_200_unless_top_level_error env req w :
  exists resp w',
    handler env req w = (Returned resp, w')
    /\ ((exists items, passes_validation env req items) -> status resp = 200)
    /\ (status resp = 500 ->
        (forall items, ~ passes_validation env req items) /\ w' = w).
Proof.
  unfold handler. destruct (String.eqb (method req) "OPTIONS").
  { eexists _, w. by repeat split. }
  unfold try_catch.
  destruct (handler_try_cases env req w) as [[e E]|[items V]].
  - rewrite E. eexists _, w. split; [done|]. simpl. split.
    + intros [items V].
      destruct (handler_try_run env req items w V) as (b & w' & evs & ? & E' & _).
      congruence.
    + intros _. split; [|done]. intros items V.
      destruct (handler_try_run env req items w V) as (b & w' & evs & ? & E' & _).
      congruence.
  - destruct (handler_try_run env req items w V) as (b & w' & evs & ? & E & _).
    rewrite E. eexists _, w'. by repeat split.
Qed.

End Claims.

(** ** Further lemmas on the model *)

Lemma take_fault_next w : fst (take_fault w) = next_fault w.
Proof. unfold take_fault, next_fault. by destruct (faults w). Qed.

Lemma obj_get_set_ne k k' v o : k <> k' -> obj_get k (obj_set k' v o) = obj_get k o.
Proof.
  intros Hne. induction o as [|[k0 v0] o IH]; simpl.
  - destruct (String.eqb k k') eqn:E; [|done]. by apply String.eqb_eq in E.
  - destruct (String.eqb k' k0) eqn:E0; simpl.
    + apply String.eqb_eq in E0 as ->.
      destruct (String.eqb k k0) eqn:E; [|done]. by apply String.eqb_eq in E.
    + by rewrite IH.
Qed.

Lemma obj_set_keys k v o : forall x, x ∈ map fst (obj_set k v o) -> x = k \/ x ∈ map fst o.
Proof.
  induction o as [|[k0 v0] o IH]; simpl; intros x Hx.
  - apply list_elem_of_singleton in Hx. by left.
  - destruct (String.eqb k k0) eqn:E; simpl in Hx.
    + apply elem_of_cons in Hx as [->|Hx]; [by left|].
      right. by apply elem_of_cons; right.
    + apply elem_of_cons in Hx as [->|Hx].
      * right. by apply elem_of_cons; left.
      * destruct (IH x Hx) as [->|Hin]; [by left|].
        right. by apply elem_of_cons; right.
Qed.

Lemma obj_spread_other k o extra :
  k ∉ map fst extra -> obj_get k (obj_spread o extra) = obj_get k o.
Proof.
  unfold obj_spread. revert o.
  induction extra as [|[k' v'] extra IH]; intros o Hk; simpl; [done|].
  simpl in Hk. apply not_elem_of_cons in Hk as [Hne Hk].
  rewrite IH by done. by apply obj_get_set_ne.
Qed.

Section MoreFacts.
Context `{Host}.

(** What a select answers, exactly. *)
Lemma db_select_eq table column v w :
  db_select table column v w
  = (Returned
       match next_fault w with
       | Some msg => SdkError msg
       | None =>
           match tables w !! table with
           | None => SdkError (unknown_relation_message table)
           | Some all => SdkData (List.filter (row_matches column v) all)
           end
       end,
     after_request (DbSelect table column v) w).
Proof.
  unfold db_select, after_request, take_fault, next_fault. simpl.
  destruct (faults w) as [|[msg|] rest]; simpl; try done;
    by destruct (tables w !! table).
Qed.

Lemma reading_weaken {A} (P Q : A -> Prop) (m : M A) :
  (forall a, P a -> Q a) -> reading P m -> reading Q m.
Proof.
  intros PQ Hm w. destruct (Hm w) as (a & w' & evs & E & Pa & R).
  exists a, w', evs. auto.
Qed.

(** The additional relations go under their normalized names only. *)
Lemma fetch_additional_keys relations glide acc :
  reading (fun r => forall k, k ∈ map fst r ->
             k ∈ map fst acc
             \/ k ∈ map (fun relation =>
                          replace_first "gl_" "" (rel_tableName relation))
                    relations)
    (fetch_additional relations glide acc).
Proof.
  revert acc. induction relations as [|relation rest IH]; intros acc; simpl.
  - apply reading_ret. intros k Hk. by left.
  - eapply (reading_bind any); [apply reading_select|]. intros r _.
    eapply reading_weaken; [|apply IH].
    intros a Ha k Hk. destruct (Ha k Hk) as [Hacc|Hrest].
    + destruct r as [msg|relatedItems]; [by left|].
      apply obj_set_keys in Hacc as [->|Hacc]; [|by left].
      right. by apply elem_of_cons; left.
    + right. by apply elem_of_cons; right.
Qed.

Lemma maybeSingle_eq q w r w1 :
  q w = (Returned r, w1) ->
  maybeSingle q w
  = (Returned match r with
              | SdkError msg => SdkError msg
              | SdkData [] => SdkData None
              | SdkData [row] => SdkData (Some row)
              | SdkData _ => SdkError multiple_rows_message
              end, w1).
Proof. intros E. unfold maybeSingle. by rewrite (bind_run _ _ _ _ _ E). Qed.

Ltac monad_steps :=
  repeat first
    [ rewrite ret_bind | rewrite throw_bind | rewrite call_bind
    | rewrite log_bind | progress cbv beta iota ].

(** The account lookup, with the reason of its exception. *)
Lemma account_run accountRowId w :
  exists out w' evs,
    (if truthy accountRowId then
       a ← maybeSingle (db_select "gl_accounts" "glide_row_id" accountRowId);
       match a with
       | SdkError _ => call (template accountRowId);; mret VNull
       | SdkData (Some account) => mret (VObj account)
       | SdkData None => mret VNull
       end
     else mret VNull) w = (out, w')
    /\ reads w w' evs
    /\ match out with
       | Returned a => a = VNull \/ exists x, a = VObj x
       | Raised _ => printable accountRowId = false
       end.
Proof.
  destruct (truthy accountRowId).
  2:{ exists (Returned VNull), w, []. split; [done|].
      split; [apply reads_refl|by left]. }
  destruct (reading_maybeSingle _
              (reading_select "gl_accounts" "glide_row_id" accountRowId) w)
    as (a & w1 & evs & E & _ & R).
  rewrite (bind_run _ _ _ _ _ E). destruct a as [msg|[account|]].
  - rewrite call_bind. unfold template.
    destruct (printable accountRowId) eqn:P.
    + exists (Returned VNull), w1, evs. split; [done|]. split; [done|by left].
    + by eexists (Raised _), w1, evs.
  - exists (Returned (VObj account)), w1, evs.
    split; [done|]. split; [done|]. right. by eexists.
  - exists (Returned VNull), w1, evs. split; [done|]. split; [done|by left].
Qed.

(** What [fetchDocumentWithRelations] returns for an id that converts to
    a string: nothing unless the document can be read and the warning
    about its account can be printed, and else its row with the lines, the
    account and the additional relations put on it. *)
Lemma fetch_result t documentId w :
  printable documentId = true ->
  exists o w',
    fetchDocumentWithRelations t documentId w = (Returned o, w')
    /\ match o with
       | None => ~ found t documentId w \/ ~ printable_account t documentId w
       | Some doc =>
           exists config rows row accountData lineItems additionalData,
             documentTypeConfig t = Some config
             /\ next_fault w = None
             /\ tables w !! tableName config = Some rows
             /\ List.filter (row_matches "id" documentId) rows = [row]
             /\ (accountData = VNull \/ exists a, accountData = VObj a)
             /\ (forall k, k ∈ map fst additionalData ->
                           k ∈ relation_names config)
             /\ doc = VObj (obj_spread
                              (obj_set "account" accountData
                                 (obj_set (lines_key t)
                                    (VArr (map VObj lineItems)) row))
                              additionalData)
       end.
Proof.
  intros P. unfold fetchDocumentWithRelations, enter. rewrite log_bind.
  set (w0 := record_event (Enter StepFetch) w).
  unfold try_catch. rewrite (template_printable _ P).
  destruct (documentTypeConfig t) as [config|] eqn:C.
  2:{ monad_steps. eexists None, _. split; [reflexivity|]. left.
      intros (config & rows & row & C' & _). congruence. }
  rewrite ret_bind, call_bind. cbv beta iota.
  rewrite (bind_run _ _ _ _ _
             (maybeSingle_eq _ _ _ _
                (db_select_eq (tableName config) "id" documentId w0))).
  change (next_fault w0) with (next_fault w).
  change (tables w0) with (tables w).
  set (w1 := after_request _ w0).
  destruct (next_fault w) as [msg|] eqn:Fq.
  { monad_steps. eexists None, _. split; [reflexivity|]. left.
    intros (config' & rows & row & _ & F' & _). congruence. }
  destruct (tables w !! tableName config) as [rows|] eqn:T.
  2:{ monad_steps. eexists None, _. split; [reflexivity|]. left.
      intros (config' & rows & row & C' & _ & T' & _). congruence. }
  destruct (List.filter (row_matches "id" documentId) rows)
    as [|row [|row' more]] eqn:Frows.
  - monad_steps. eexists None, _. split; [reflexivity|]. left.
    intros (config' & rows' & row & C' & _ & T' & F'). congruence.
  - rewrite ret_bind.
    destruct (account_run (obj_get (accountRefField config) row) w1)
      as (account & w2 & evs & E2 & _ & Haccount).
    rewrite (bind_run _ _ _ _ _ E2). destruct account as [accountData|e].
    2:{ monad_steps. eexists None, _. split; [reflexivity|]. right.
        intros Hp. specialize (Hp config rows row C T Frows). congruence. }
    lazymatch goal with
    | |- context [ @mbind M _ _ _ ?k ?m w2 ] =>
        assert (reading
                  (fun o => exists lineItems additionalData,
                     (forall key, key ∈ map fst additionalData ->
                                  key ∈ relation_names config)
                     /\ o = Some (VObj (obj_spread
                                          (obj_set "account" accountData
                                             (obj_set (lines_key t)
                                                (VArr (map VObj lineItems)) row))
                                          additionalData)))
                  (m ≫= k)) as HR
    end.
    { eapply (reading_bind any); [apply reading_fetch_lines|].
      intros lineItems _.
      eapply (reading_bind
                (fun r => forall k, k ∈ map fst r -> k ∈ relation_names config)).
      - unfold relation_names.
        destruct (additionalRelations config) as [relations|].
        + eapply reading_weaken; [|apply fetch_additional_keys].
          intros a Ha k Hk. destruct (Ha k Hk) as [Hnil|Hin]; [|done].
          by apply elem_of_nil in Hnil.
        + by apply reading_ret.
      - intros additionalData Hkeys. apply reading_ret.
        exists lineItems, additionalData. split; [done|]. by destruct t. }
    destruct (HR w2) as (o & w3 & sel & E3 & (l & d & Hd & ->) & _).
    rewrite E3. eexists (Some _), w3. split; [reflexivity|].
    by exists config, rows, row, accountData, l, d.
  - monad_steps. eexists None, _. split; [reflexivity|]. left.
    intros (config' & rows' & row0 & C' & _ & T' & F'). congruence.
Qed.

(** What [storePDF] does, exactly. *)
Lemma storePDF_exact pdfBytes fileName folderPath w :
  let path := folderPath +:+ "/" +:+ fileName in
  exists o w',
    storePDF pdfBytes fileName folderPath w = (Returned o, w')
    /\ tables w' = tables w
    /\ bucket w' = match next_fault w with
                   | Some _ => bucket w
                   | None => <[path := pdfBytes]> (bucket w)
                   end
    /\ trace w' = trace w ++ [Enter StepStore; StorageUpload path]
                   ++ match o with Some _ => [] | None => [StepError StepStore] end
    /\ o = match next_fault w, storage_publicUrl path with
           | None, Some publicUrl =>
               if String.eqb publicUrl "" then None else Some publicUrl
           | _, _ => None
           end.
Proof.
  intros path. unfold storePDF, storage_upload, take_fault, next_fault.
  fold path. unfold_monad. simpl.
  destruct (faults w) as [|[msg|] rest]; simpl;
    destruct (storage_publicUrl path) as [publicUrl|];
    try destruct (String.eqb publicUrl "");
    (eexists _, _; split; [reflexivity|]; simpl;
     rewrite <- ?app_assoc; by repeat split).
Qed.

(** What [updateDatabaseWithPdfUrl] does, exactly. *)
Lemma updateDatabaseWithPdfUrl_exact t documentId pdfUrl w :
  exists (b : bool) w' reqs,
    updateDatabaseWithPdfUrl t documentId pdfUrl w = (Returned b, w')
    /\ bucket w' = bucket w
    /\ trace w' = trace w ++ Enter StepUpdate :: reqs
                   ++ (if b then [] else [StepError StepUpdate])
    /\ (reqs = [] \/ exists table field, reqs = [DbUpdate table field pdfUrl documentId])
    /\ (b = false -> tables w' = tables w)
    /\ (b = true <->
        exists config field rows,
          getPdfUrlField t = Returned field
          /\ documentTypeConfig t = Some config
          /\ next_fault w = None
          /\ tables w !! tableName config = Some rows)
    /\ (b = true -> reqs <> []).
Proof.
  unfold updateDatabaseWithPdfUrl, db_update, take_fault, next_fault.
  unfold_monad. simpl.
  destruct (getPdfUrlField t) as [field|e] eqn:F.
  2:{ eexists false, _, []. split; [reflexivity|]. simpl.
      rewrite <- app_assoc. repeat split; try done; eauto.
      by intros (? & ? & ? & ? & _). }
  destruct (documentTypeConfig t) as [config|] eqn:C.
  2:{ eexists false, _, []. split; [reflexivity|]. simpl.
      rewrite <- app_assoc. repeat split; try done; eauto.
      by intros (? & ? & ? & _ & ? & _). }
  simpl. set (ev := DbUpdate (tableName config) field pdfUrl documentId).
  destruct (faults w) as [|[msg|] rest]; simpl;
    destruct (tables w !! tableName config) as [rows|] eqn:T;
    (eexists _, _, [ev]; split; [reflexivity|]; simpl;
     rewrite <- ?app_assoc; repeat split; try done; eauto;
     try (intros _; by eexists config, field, _);
     try (intros (? & ? & ? & ? & ? & ? & ?); simplify_eq)).
Qed.

Lemma write_url_no_match field pdfUrl documentId rows :
  List.filter (row_matches "id" documentId) rows = [] ->
  map (write_url field pdfUrl documentId) rows = rows.
Proof.
  induction rows as [|row rows IH]; simpl; [done|]. unfold write_url at 1.
  destruct (row_matches "id" documentId row); [done|].
  intros F. by rewrite IH.
Qed.

Lemma count_after_fetch sel tail :
  Forall is_select sel ->
  uploads ([Enter StepNormalize; Enter StepFetch] ++ sel ++ tail) = uploads tail
  /\ updates ([Enter StepNormalize; Enter StepFetch] ++ sel ++ tail)
     = updates tail.
Proof.
  unfold uploads, updates. simpl. rewrite !List.filter_app, !length_app.
  induction 1 as [|e sel He _ [IH1 IH2]]; [done|].
  by destruct e.
Qed.

Ltac effects_leaf sel tail Fsel :=
  eexists _, _, ([Enter StepNormalize; Enter StepFetch] ++ sel ++ tail);
  split; [reflexivity|];
  split;
  [ simpl;
    repeat match goal with L : trace _ = _ |- _ => rewrite L; clear L end;
    by list_norm |];
  destruct (count_after_fetch sel tail Fsel) as [-> ->];
  unfold uploads, updates; simpl;
  repeat split; try done; lia.

(** What a run of [processItem] sends and changes. *)
Lemma processItem_effects item w :
  exists out w' evs,
    processItem item w = (out, w')
    /\ trace w' = trace w ++ evs
    /\ uploads evs <= 1
    /\ updates evs <= uploads evs
    /\ (uploads evs = 0 -> bucket w' = bucket w)
    /\ (updates evs = 0 -> tables w' = tables w)
    /\ match out with
       | Returned r =>
           id r = prop "id" item
           /\ type r = match normalizeDocumentType (prop "type" item) with
                       | Returned t => VStr (DocumentType_value t)
                       | Raised _ => prop "type" item
                       end
           /\ (success r = false -> tables w' = tables w)
           /\ (success r = true -> uploads evs = 1 /\ updates evs = 1)
       | Raised _ => uploads evs = 0
       end.
Proof.
  rewrite processItem_unfold.
  set (w0 := record_event (Enter StepNormalize) w).
  assert (trace w0 = trace w ++ [Enter StepNormalize]) as L0 by done.
  destruct (normalizeDocumentType (prop "type" item)) as [t|e] eqn:N.
  2:{ rewrite processItem_catch_run.
      destruct (printable (prop "id" item)); [destruct e|].
      - eexists _, _, [Enter StepNormalize; ItemError].
        split; [reflexivity|]. split; [simpl; by list_norm|].
        unfold uploads, updates. simpl. repeat split; try done; lia.
      - eexists _, _, [Enter StepNormalize; ItemError].
        split; [reflexivity|]. split; [simpl; by list_norm|].
        unfold uploads, updates. simpl. repeat split; try done; lia.
      - eexists _, _, [Enter StepNormalize].
        split; [reflexivity|]. split; [done|].
        unfold uploads, updates. simpl. repeat split; try done; lia. }
  cbv zeta. set (result := {| id := prop "id" item |}).
  unfold try_catch, processItem_steps.
  destruct (fetchDocumentWithRelations_run t (prop "id" item) w0)
    as (fetch & w1 & sel & E1 & T1 & B1 & Fsel & Hfetch).
  rewrite (bind_run _ _ _ _ _ E1).
  change (tables w0) with (tables w) in T1.
  change (bucket w0) with (bucket w) in B1.
  destruct fetch as [[documentData|]|e].
  3:{ destruct Hfetch as (P & _ & -> & L1).
      rewrite processItem_catch_run, P. effects_leaf (@nil Event) (@nil Event) Fsel. }
  2:{ destruct Hfetch as (P & L1 & _).
      rewrite (bind_run _ _ _ _ _ (failure_message_run _ _ _ _ P)).
      effects_leaf sel [StepError StepFetch] Fsel. }
  destruct Hfetch as (P & L1 & _).
  destruct (generatePDF_run t documentData w1)
    as (pdf & w2 & E2 & T2 & B2 & L2).
  rewrite (bind_run _ _ _ _ _ E2).
  rewrite T1 in T2. rewrite B1 in B2.
  destruct pdf as [pdfBytes|].
  2:{ rewrite (bind_run _ _ _ _ _ (failure_message_run _ _ _ _ P)).
      effects_leaf sel [Enter StepGenerate; StepError StepGenerate] Fsel. }
  assert (forall error : exception,
    exists out w' evs,
      processItem_catch item result error w2 = (out, w')
      /\ trace w' = trace w ++ evs
      /\ uploads evs <= 1
      /\ updates evs <= uploads evs
      /\ (uploads evs = 0 -> bucket w' = bucket w)
      /\ (updates evs = 0 -> tables w' = tables w)
      /\ match out with
         | Returned r =>
             id r = prop "id" item
             /\ type r = VStr (DocumentType_value t)
             /\ (success r = false -> tables w' = tables w)
             /\ (success r = true -> uploads evs = 1 /\ updates evs = 1)
         | Raised _ => uploads evs = 0
         end) as Caught.
  { intros error. rewrite processItem_catch_run, P.
    destruct error; effects_leaf sel [Enter StepGenerate; ItemError] Fsel. }
  rewrite call_bind.
  destruct (generateFileName t documentData) as [fileName|e]; [|apply Caught].
  rewrite call_bind.
  destruct (getStorageFolderPath t) as [folderPath|e]; [|apply Caught].
  clear Caught.
  destruct (storePDF_exact pdfBytes fileName folderPath w2)
    as (store & w3 & E3 & T3 & _ & L3 & _).
  set (path := folderPath +:+ "/" +:+ fileName) in *.
  rewrite (bind_run _ _ _ _ _ E3). rewrite T2 in T3.
  destruct store as [pdfUrl|].
  2:{ rewrite (bind_run _ _ _ _ _ (failure_message_run _ _ _ _ P)).
      effects_leaf sel [Enter StepGenerate; Enter StepStore; StorageUpload path;
                        StepError StepStore] Fsel. }
  destruct (updateDatabaseWithPdfUrl_exact t (prop "id" item) pdfUrl w3)
    as (updated & w4 & reqs & E4 & _ & L4 & Hreqs & Hfalse & _ & Htrue).
  rewrite (bind_run _ _ _ _ _ E4).
  destruct updated.
  - destruct Hreqs as [->|(table & field & ->)]; [by destruct Htrue|].
    effects_leaf sel [Enter StepGenerate; Enter StepStore; StorageUpload path;
                      Enter StepUpdate;
                      DbUpdate table field pdfUrl (prop "id" item)] Fsel.
  - assert (tables w4 = tables w) as T4 by (by rewrite Hfalse).
    rewrite (bind_run _ _ _ _ _ (failure_message_run _ _ _ _ P)).
    destruct Hreqs as [->|(table & field & ->)].
    + effects_leaf sel [Enter StepGenerate; Enter StepStore; StorageUpload path;
                        Enter StepUpdate; StepError StepUpdate] Fsel.
    + effects_leaf sel [Enter StepGenerate; Enter StepStore; StorageUpload path;
                        Enter StepUpdate;
                        DbUpdate table field pdfUrl (prop "id" item);
                        StepError StepUpdate] Fsel.
Qed.

(** A malformed item is rejected on the spot. *)
Lemma process_one_invalid item rs es w :
  invalid_item item = true ->
  process_one item (rs, es) w
  = (Returned (rs ++ [rejected item "Invalid item format (missing id or type)"],
               es), w).
Proof. intros V. unfold process_one. by rewrite V. Qed.

(** An ordinary item is processed once and gets one result, with its line
    in [errors] when it failed. *)
Lemma process_one_ordinary item rs es w :
  invalid_item item = false -> ordinary item ->
  exists r w',
    processItem item w = (Returned r, w')
    /\ process_one item (rs, es) w
       = (Returned (rs ++ [r],
                    es ++ (if negb (success r) then [error_line r] else [])),
          w').
Proof.
  intros V (Pid & Ptype & Hnull). unfold process_one. rewrite V.
  destruct (processItem_run item w) as (out & w' & E & Hrun).
  destruct (processItem_effects item w) as (out' & w0 & evs & E' & _ & _ & _ & _ & _ & Heff).
  rewrite E in E'. injection E' as <- <-.
  rewrite (attempt_bind _ _ _ _ _ E).
  destruct Hrun as (steps & ok & wk & evs' & _ & _ & _ & _ & Hout).
  destruct out as [r|e].
  2:{ destruct Hout as (_ & _ & [Hp|Hn]); [congruence|done]. }
  exists r, w'. split; [done|]. cbv zeta.
  destruct (success r); simpl; [by rewrite app_nil_r|].
  rewrite (attempt_bind _ _ _ _ _ (error_report_run r w')).
  destruct Heff as (I & T & _).
  assert (printable (type r) = true) as ->.
  { rewrite T. by destruct (normalizeDocumentType (prop "type" item)). }
  assert (printable (id r) = true) as -> by (by rewrite I).
  done.
Qed.

(** One turn of the loop for a malformed or an ordinary item. *)
Lemma process_one_exact item rs es w :
  (invalid_item item = false -> ordinary item) ->
  exists r w',
    process_one item (rs, es) w
    = (Returned (rs ++ [r],
                 es ++ (if well_formed item && negb (success r)
                        then [error_line r] else [])), w')
    /\ (invalid_item item = true ->
        w' = w /\ r = rejected item "Invalid item format (missing id or type)").
Proof.
  intros Hord. unfold well_formed.
  destruct (invalid_item item) eqn:V.
  - rewrite (process_one_invalid _ _ _ _ V). simpl.
    eexists _, w. rewrite app_nil_r. by split.
  - destruct (process_one_ordinary item rs es w V (Hord eq_refl))
      as (r & w' & _ & E).
    rewrite E. by exists r, w'.
Qed.

(** The loop over malformed and ordinary items, with the error lines it
    adds. *)
Lemma for_each_item_exact items rs es w :
  Forall (fun item => invalid_item item = false -> ordinary item) items ->
  exists rs' w',
    for_each_item items (rs, es) w
    = (Returned (rs ++ rs', es ++ map error_line (failed_processed items rs')),
       w')
    /\ length rs' = length items
    /\ (Forall (fun item => invalid_item item = true) items ->
        w' = w
        /\ rs' = map (fun item =>
                        rejected item "Invalid item format (missing id or type)")
                   items).
Proof.
  intros Hord. revert rs es w.
  induction Hord as [|item rest Hitem _ IH]; intros rs es w; simpl.
  - exists [], w. by rewrite !app_nil_r.
  - destruct (process_one_exact item rs es w Hitem) as (r & w1 & E1 & Hbad).
    rewrite (bind_run _ _ _ _ _ E1).
    destruct (IH (rs ++ [r])
                (es ++ (if well_formed item && negb (success r)
                        then [error_line r] else [])) w1)
      as (rs2 & w2 & E2 & Hlen & Hall).
    exists (r :: rs2), w2. rewrite E2, <- !app_assoc. split.
    + unfold failed_processed. simpl.
      by destruct (well_formed item && negb (success r)).
    + split; [simpl; by rewrite Hlen|].
      intros Hf. apply Forall_cons in Hf as [Hi Hrest].
      destruct (Hbad Hi) as [-> ->]. destruct (Hall Hrest) as [-> ->]. done.
Qed.

Lemma invalid_items_ordinary items :
  Forall (fun item => invalid_item item = true) items ->
  Forall (fun item => invalid_item item = false -> ordinary item) items.
Proof.
  intros F. eapply Forall_impl; [exact F|]. intros item V V'. congruence.
Qed.

Lemma uploads_app a b : uploads (a ++ b) = uploads a + uploads b.
Proof. unfold uploads. by rewrite List.filter_app, length_app. Qed.

Lemma updates_app a b : updates (a ++ b) = updates a + updates b.
Proof. unfold updates. by rewrite List.filter_app, length_app. Qed.


Lemma successes_app (a b : list BatchPDFItemResult) :
  length (List.filter success (a ++ b))
  = length (List.filter success a) + length (List.filter success b).
Proof. by rewrite List.filter_app, length_app. Qed.

(** One turn of the loop, with what it sends. *)
Lemma process_one_counts item rs es w :
  exists block es' w' evs,
    process_one item (rs, es) w = (Returned (rs ++ block, es'), w')
    /\ trace w' = trace w ++ evs
    /\ uploads evs <= (if invalid_item item then 0 else 1)
    /\ updates evs <= uploads evs
    /\ length (List.filter success block) <= updates evs.
Proof.
  destruct (invalid_item item) eqn:V.
  - rewrite (process_one_invalid _ _ _ _ V).
    eexists [_], es, w, []. rewrite app_nil_r. by repeat split.
  - unfold process_one. rewrite V.
    destruct (processItem_run item w) as (out & w' & E & Hrun).
    destruct (processItem_effects item w)
      as (out' & w0 & evs & E' & L & U1 & U2 & _ & _ & Heff).
    rewrite E in E'. injection E' as <- <-.
    rewrite (attempt_bind _ _ _ _ _ E).
    destruct Hrun as (steps & ok & wk & evs' & _ & _ & _ & _ & Hout).
    destruct out as [r|e].
    + destruct Heff as (_ & _ & _ & U5). cbv zeta.
      destruct (success r) eqn:S.
      * eexists [r], _, w', evs. split; [reflexivity|].
        repeat split; try done. simpl. rewrite S. simpl.
        destruct (U5 eq_refl) as [_ ->]. lia.
      * rewrite (attempt_bind _ _ _ _ _ (error_report_run r w')).
        destruct (printable (type r) && printable (id r)); cbv beta iota.
        -- eexists [r], _, w', evs. split; [reflexivity|].
           repeat split; try done. simpl. rewrite S. simpl. lia.
        -- rewrite process_one_catch_run, <- app_assoc.
           eexists [r; _], _, w', evs. split; [reflexivity|].
           repeat split; try done. simpl. rewrite S. simpl. lia.
    + destruct Hout as (_ & (message & ->) & _). cbv beta iota.
      rewrite process_one_catch_run.
      eexists [_], _, w', evs. split; [reflexivity|].
      repeat split; try done. simpl. lia.
Qed.

(** The loop, with what it sends. *)
Lemma for_each_item_counts items rs es w :
  exists rs' es' w' evs,
    for_each_item items (rs, es) w = (Returned (rs ++ rs', es'), w')
    /\ trace w' = trace w ++ evs
    /\ uploads evs <= length (List.filter well_formed items)
    /\ updates evs <= uploads evs
    /\ length (List.filter success rs') <= updates evs.
Proof.
  revert rs es w. induction items as [|item rest IH]; intros rs es w; simpl.
  - exists [], es, w, []. rewrite !app_nil_r. by repeat split.
  - destruct (process_one_counts item rs es w)
      as (block & es1 & w1 & ev1 & E1 & L1 & U1 & V1 & S1).
    rewrite (bind_run _ _ _ _ _ E1).
    destruct (IH (rs ++ block) es1 w1)
      as (rs2 & es2 & w2 & ev2 & E2 & L2 & U2 & V2 & S2).
    exists (block ++ rs2), es2, w2, (ev1 ++ ev2).
    rewrite E2, <- !app_assoc. split; [done|].
    split; [by rewrite L2, L1, <- app_assoc|].
    rewrite uploads_app, updates_app, successes_app. unfold well_formed in *.
    split; [|split; lia].
    destruct (invalid_item item); simpl; lia.
Qed.


(** What [generatePDF] does, exactly. *)
Lemma generatePDF_exact t data w :
  generatePDF t data w
  = let w0 := record_event (Enter StepGenerate) w in
    let failed := (Returned None, record_event (StepError StepGenerate) w0) in
    match data with
    | VUndefined | VNull => failed
    | _ =>
        if printable (logged_id data) then
          match adaptDataForSharedGenerator t data with
          | Raised _ => failed
          | Returned adapted =>
              match pdf_label t with
              | None => failed
              | Some label =>
                  match adapted with
                  | VUndefined | VNull => failed
                  | _ =>
                      if printable (or_else (prop "id" adapted) (VStr "unknown"))
                      then (Returned
                              (Some (TextEncoder_encode
                                       ("PDF " +:+ label +:+ " for "
                                        +:+ JSON_stringify adapted))), w0)
                      else failed
                  end
              end
          end
        else failed
    end.
Proof.
  unfold generatePDF, loadPdfGenerator, mockGeneratePdf, template, logged_id.
  unfold_monad. cbn [generateInvoicePDF generatePurchaseOrderPDF generateEstimatePDF].
  destruct data; try reflexivity;
    (destruct (printable _); [|reflexivity];
     destruct (adaptDataForSharedGenerator t _) as [adapted|e]; [|reflexivity];
     destruct t; try reflexivity;
     destruct adapted; try reflexivity;
     cbn [pdf_label]; by destruct (printable _)).
Qed.
(** The loop over the lines never drops or reorders a line, and changes
    none of its columns but [gl_products]. *)
Lemma attach_products_lines lines :
  reading (fun lines' =>
             Forall2 (fun line line' =>
                        forall k, k <> "gl_products" ->
                                  obj_get k line' = obj_get k line)
               lines lines')
    (attach_products lines).
Proof.
  induction lines as [|line rest IH]; simpl.
  - apply reading_ret. constructor.
  - eapply (reading_bind
              (fun line' => forall k, k <> "gl_products" ->
                                      obj_get k line' = obj_get k line)).
    + destruct (truthy _); [|by apply reading_ret].
      eapply (reading_bind any); [apply reading_maybeSingle, reading_select|].
      intros [msg|[product|]] _; apply reading_ret; try done.
      intros k Hk. by apply obj_get_set_ne.
    + intros line' Hline. eapply reading_bind; [exact IH|].
      intros rest' Hrest. apply reading_ret. by constructor.
Qed.

End MoreFacts.

(** ** Further properties *)

Section Extras.
Context `{Host}.

(** X1.  [fetchDocumentWithRelations] only reads, whether it returns or
    throws: the tables and the bucket are as before, and no upload or
    update was sent.  It throws exactly when the id cannot be converted to
    a string -- the log line throws, and then the report of the [catch]
    does -- and then it has sent no request at all. *)
Theorem fetch_only_reads t documentId w :
  exists out w',
    fetchDocumentWithRelations t documentId w = (out, w')
    /\ tables w' = tables w
    /\ bucket w' = bucket w
    /\ Forall (fun e => ~ is_write e) (new_events w w')
    /\ match out with
       | Returned _ => printable documentId = true
       | Raised e =>
           printable documentId = false
           /\ e = Exn (Thrown ToPrimitive_message)
           /\ requests (new_events w w') = 0
       end.
Proof.
  destruct (fetchDocumentWithRelations_run t documentId w)
    as (out & w' & sel & E & T & B & F & Hout).
  exists out, w'. split; [done|]. split; [done|]. split; [done|].
  destruct out as [o|e].
  - destruct Hout as (P & L & _). rewrite (new_events_app _ _ _ L).
    split; [|done].
    constructor; [cbn; tauto|]. apply Forall_app.
    split; [by apply selects_not_write|].
    destruct o; by repeat (constructor; [cbn; tauto|]).
  - destruct Hout as (P & -> & -> & L). rewrite (new_events_app _ _ _ L).
    split; [|done]. by repeat (constructor; [cbn; tauto|]).
Qed.

(** X2.  For an id that converts to a string and a document whose account
    reference does, [fetchDocumentWithRelations] returns a document
    exactly when the type is configured, its first request meets no fault,
    and the table has exactly one row with the id; a failure of any later
    lookup (account, lines, products, additional relations) does not make
    it fail. *)
Theorem fetch_returns_document_iff_found t documentId w :
  printable documentId = true ->
  printable_account t documentId w ->
  exists o w',
    fetchDocumentWithRelations t documentId w = (Returned o, w')
    /\ (is_Some o <-> found t documentId w).
Proof.
  intros P Pa. destruct (fetch_result t documentId w P) as (o & w' & E & Ho).
  exists o, w'. split; [done|]. destruct o as [doc|].
  - split; [|by eexists].
    intros _. destruct Ho as (config & rows & row & _ & _ & _ & C & F & T & R & _).
    by exists config, rows, row.
  - split; [by intros [? [=]]|]. by destruct Ho.
Qed.

(** X3.  A document that [fetchDocumentWithRelations] returns is the row
    read from the table with properties added: every column keeps its
    value unless it is named ['account'], like the lines property of the
    type, or like an additional relation; and unless a relation takes
    their names, ['account'] is an object or null and the lines property
    is an array. *)
Theorem fetched_document_keeps_columns t documentId w doc w' :
  fetchDocumentWithRelations t documentId w = (Returned (Some doc), w') ->
  exists config rows row fields,
    documentTypeConfig t = Some config
    /\ tables w !! tableName config = Some rows
    /\ List.filter (row_matches "id" documentId) rows = [row]
    /\ doc = VObj fields
    /\ (forall k, k <> "account" -> k <> lines_key t ->
                  k ∉ relation_names config ->
                  obj_get k fields = obj_get k row)
    /\ ("account" ∉ relation_names config ->
        obj_get "account" fields = VNull
        \/ exists account, obj_get "account" fields = VObj account)
    /\ (lines_key t ∉ relation_names config ->
        exists lines, obj_get (lines_key t) fields = VArr (map VObj lines)).
Proof.
  intros E.
  assert (printable documentId = true) as P.
  { destruct (fetchDocumentWithRelations_run t documentId w)
      as (out & w0 & sel & E0 & _ & _ & _ & Hout).
    rewrite E in E0. injection E0 as <- <-. apply Hout. }
  destruct (fetch_result t documentId w P) as (o & w0 & E0 & Ho).
  rewrite E in E0. injection E0 as <- <-.
  destruct Ho as (config & rows & row & a & l & d & C & _ & T & R & Ha & Hd & ->).
  exists config, rows, row. eexists. split; [done|]. split; [done|].
  split; [done|]. split; [reflexivity|].
  assert (forall k, k ∉ relation_names config -> k ∉ map fst d) as Hout.
  { intros k Hk Hin. by apply Hk, Hd. }
  split; [|split].
  - intros k K1 K2 K3. rewrite obj_spread_other by auto.
    by rewrite !obj_get_set_ne.
  - intros K. rewrite obj_spread_other by auto. by rewrite obj_get_set.
  - intros K. rewrite obj_spread_other by auto.
    rewrite obj_get_set_ne by (by destruct t). rewrite obj_get_set. by exists l.
Qed.

(** X4.  [generatePDF] never throws, sends no request and changes
    nothing.  It returns [null] exactly when the data is nullish or the id
    that its log line prints cannot be converted to a string, the adapter
    throws or returns a value that is nullish or whose id the stub cannot
    print, or the type is none of invoice, purchase order, estimate;
    otherwise the bytes are the encoded text of the stub for the adapted
    data. *)
Theorem generatePDF_null_iff t data w :
  exists o w',
    generatePDF t data w = (Returned o, w')
    /\ tables w' = tables w /\ bucket w' = bucket w /\ faults w' = faults w
    /\ (o = None <->
        nullish data
        \/ printable (logged_id data) = false
        \/ (exists e, adaptDataForSharedGenerator t data = Raised e)
        \/ (exists adapted, adaptDataForSharedGenerator t data = Returned adapted
                            /\ (nullish adapted
                                \/ printable (or_else (prop "id" adapted)
                                                (VStr "unknown")) = false))
        \/ pdf_label t = None)
    /\ (forall pdf, o = Some pdf ->
        exists adapted label,
          adaptDataForSharedGenerator t data = Returned adapted
          /\ pdf_label t = Some label
          /\ pdf = TextEncoder_encode
                     ("PDF " +:+ label +:+ " for " +:+ JSON_stringify adapted)).
Proof.
  rewrite generatePDF_exact. cbv zeta. unfold nullish.
  repeat case_match;
    (eexists _, _; split; [reflexivity|];
     split; [done|]; split; [done|]; split; [done|];
     split; [|intros pdf Hp; simplify_eq; eauto]).
  all: split;
    [ intros Ho; try discriminate Ho;
      first [ left; by auto
            | right; left; done
            | right; right; left; by eauto
            | right; right; right; left; eexists; split; [reflexivity|];
              first [left; by auto | by right]
            | right; right; right; right; done ]
    | intros [[?|?]|[?|[[? ?]|[(? & ? & [[?|?]|?])|?]]]];
      simplify_eq; congruence ].
Qed.

(** X5.  [storePDF] returns a URL exactly when the upload meets no fault
    and the storage gives a non-empty public URL for the path, and then
    it returns that URL. *)
Theorem storePDF_url_iff pdfBytes fileName folderPath w :
  exists o w',
    storePDF pdfBytes fileName folderPath w = (Returned o, w')
    /\ forall pdfUrl,
         o = Some pdfUrl
         <-> next_fault w = None
             /\ storage_publicUrl (folderPath +:+ "/" +:+ fileName) = Some pdfUrl
             /\ pdfUrl <> "".
Proof.
  destruct (storePDF_exact pdfBytes fileName folderPath w)
    as (o & w' & E & _ & _ & _ & ->).
  eexists _, w'. split; [done|]. intros pdfUrl.
  destruct (next_fault w) as [msg|].
  { split; [done|]. by intros [? _]. }
  destruct (storage_publicUrl _) as [publicUrl|].
  2:{ split; [done|]. by intros (_ & ? & _). }
  destruct (String.eqb publicUrl "") eqn:Q.
  - apply String.eqb_eq in Q as ->. split; [done|]. intros (_ & [= <-] & ?). done.
  - split.
    + intros [= <-]. repeat split. intros ->. by rewrite String.eqb_refl in Q.
    + by intros (_ & [= <-] & _).
Qed.

(** X6.  Whatever [storePDF] returns, it leaves the tables alone, and the
    bucket is as before when the upload met a fault and else as before
    with the content put at the path (an object already there is
    replaced, the others stay). *)
Theorem storePDF_bucket pdfBytes fileName folderPath w :
  exists o w',
    storePDF pdfBytes fileName folderPath w = (Returned o, w')
    /\ tables w' = tables w
    /\ bucket w' = match next_fault w with
                   | Some _ => bucket w
                   | None => <[folderPath +:+ "/" +:+ fileName := pdfBytes]>
                               (bucket w)
                   end.
Proof.
  destruct (storePDF_exact pdfBytes fileName folderPath w)
    as (o & w' & E & T & B & _).
  by exists o, w'.
Qed.

(** X7.  When the upload goes through but the storage gives no public URL
    (or an empty one), [storePDF] returns [null] although the file is now
    in the bucket. *)
Theorem storePDF_failure_after_upload pdfBytes fileName folderPath w :
  next_fault w = None ->
  storage_publicUrl (folderPath +:+ "/" +:+ fileName) = None
  \/ storage_publicUrl (folderPath +:+ "/" +:+ fileName) = Some "" ->
  exists w',
    storePDF pdfBytes fileName folderPath w = (Returned None, w')
    /\ bucket w' !! (folderPath +:+ "/" +:+ fileName) = Some pdfBytes.
Proof.
  intros F U.
  destruct (storePDF_exact pdfBytes fileName folderPath w)
    as (o & w' & E & _ & B & _ & ->).
  rewrite F in *. exists w'. rewrite B, lookup_insert_eq.
  split; [|done]. rewrite E. by destruct U as [-> | ->].
Qed.

(** X8.  When [updateDatabaseWithPdfUrl] returns [false], no table and no
    object has changed. *)
Theorem failed_update_writes_nothing t documentId pdfUrl w w' :
  updateDatabaseWithPdfUrl t documentId pdfUrl w = (Returned false, w') ->
  tables w' = tables w /\ bucket w' = bucket w.
Proof.
  intros E.
  destruct (updateDatabaseWithPdfUrl_exact t documentId pdfUrl w)
    as (b & w0 & reqs & E0 & B & _ & _ & Hf & _).
  rewrite E in E0. injection E0 as <- <-. by split; [apply Hf|].
Qed.

(** X9.  [updateDatabaseWithPdfUrl] never throws, and it returns [true]
    exactly when the PDF-URL field of the type is known, the type is
    configured, the request meets no fault and the table exists. *)
Theorem update_true_iff t documentId pdfUrl w :
  exists (b : bool) w',
    updateDatabaseWithPdfUrl t documentId pdfUrl w = (Returned b, w')
    /\ (b = true <->
        exists config field rows,
          getPdfUrlField t = Returned field
          /\ documentTypeConfig t = Some config
          /\ next_fault w = None
          /\ tables w !! tableName config = Some rows).
Proof.
  destruct (updateDatabaseWithPdfUrl_exact t documentId pdfUrl w)
    as (b & w' & reqs & E & _ & _ & _ & _ & Hb & _).
  by exists b, w'.
Qed.

(** X10.  When [updateDatabaseWithPdfUrl] returns [true], only the table
    of the type has changed, and in it only the PDF-URL field of the rows
    with the id: the table has as many rows as before, a row with another
    id is as it was, a row with the id has the URL in the field, and every
    other column of every row is as it was. *)
Theorem update_touches_only_the_field t documentId pdfUrl w w' :
  updateDatabaseWithPdfUrl t documentId pdfUrl w = (Returned true, w') ->
  exists config field rows rows',
    documentTypeConfig t = Some config
    /\ getPdfUrlField t = Returned field
    /\ tables w !! tableName config = Some rows
    /\ tables w' !! tableName config = Some rows'
    /\ length rows' = length rows
    /\ (forall i row, rows !! i = Some row ->
        exists row',
          rows' !! i = Some row'
          /\ (row_matches "id" documentId row = false -> row' = row)
          /\ (row_matches "id" documentId row = true ->
              obj_get field row' = VStr pdfUrl)
          /\ (forall k, k <> field -> obj_get k row' = obj_get k row))
    /\ (forall table, table <> tableName config ->
                      tables w' !! table = tables w !! table)
    /\ bucket w' = bucket w.
Proof.
  intros E.
  destruct (updateDatabaseWithPdfUrl_run t documentId pdfUrl w)
    as (b & w0 & reqs & E0 & B & _ & _ & Hb).
  rewrite E in E0. injection E0 as <- <-.
  destruct (Hb eq_refl) as (config & field & rows & C & F & T & Tw).
  exists config, field, rows, (map (write_url field pdfUrl documentId) rows).
  split; [done|]. split; [done|]. split; [done|].
  split; [rewrite Tw; apply lookup_insert_eq|].
  split; [apply length_map|]. split; [|split; [|done]].
  - intros i row Hi. exists (write_url field pdfUrl documentId row).
    split; [by rewrite list_lookup_fmap, Hi|].
    unfold write_url. destruct (row_matches "id" documentId row).
    + split; [done|]. split; [intros _; apply obj_get_set|].
      intros k Hk. by apply obj_get_set_ne.
    + by repeat split.
  - intros table Hne. rewrite Tw. by apply lookup_insert_ne.
Qed.

(** X11.  An update for an id that no row has is still reported as done:
    [updateDatabaseWithPdfUrl] returns [true] and the tables are as
    before. *)
Theorem update_without_matching_row t documentId pdfUrl w config field rows :
  getPdfUrlField t = Returned field ->
  documentTypeConfig t = Some config ->
  next_fault w = None ->
  tables w !! tableName config = Some rows ->
  List.filter (row_matches "id" documentId) rows = [] ->
  exists w',
    updateDatabaseWithPdfUrl t documentId pdfUrl w = (Returned true, w')
    /\ tables w' = tables w.
Proof.
  intros F C N T R.
  destruct (updateDatabaseWithPdfUrl_run t documentId pdfUrl w)
    as (b & w' & reqs & E & _ & _ & _ & Hb).
  destruct (updateDatabaseWithPdfUrl_exact t documentId pdfUrl w)
    as (b' & w'' & reqs' & E' & _ & _ & _ & _ & Hiff & _).
  rewrite E in E'. injection E' as <- <-.
  assert (b = true) as -> by (apply Hiff; by exists config, field, rows).
  exists w'. split; [done|].
  destruct (Hb eq_refl) as (config' & field' & rows' & C' & F' & T' & ->).
  simplify_eq. rewrite (write_url_no_match _ _ _ _ R). by apply insert_id.
Qed.

(** X12.  A result of [processItem] carries the id of the item, and as
    type the normalized type once the normalization has succeeded, the
    type as given when it threw.  [processItem] throws instead of
    returning only when the id cannot be converted to a string or an
    import threw [null], and what it throws then is an error. *)
Theorem processItem_echoes_id_and_type item w :
  exists out w',
    processItem item w = (out, w')
    /\ match out with
       | Returned r =>
           id r = prop "id" item
           /\ type r = match normalizeDocumentType (prop "type" item) with
                       | Returned t => VStr (DocumentType_value t)
                       | Raised _ => prop "type" item
                       end
       | Raised e =>
           (exists message, e = Exn (Thrown message))
           /\ (printable (prop "id" item) = false \/ import_throws_null item)
       end.
Proof.
  destruct (processItem_run item w) as (out & w' & E & Hrun).
  destruct (processItem_effects item w)
    as (out' & w0 & evs & E' & _ & _ & _ & _ & _ & Heff).
  rewrite E in E'. injection E' as <- <-.
  exists out, w'. split; [done|].
  destruct Hrun as (steps & ok & wk & evs' & _ & _ & _ & _ & Hout).
  destruct out as [r|e].
  - destruct Heff as (I & T & _). by split.
  - destruct Hout as (_ & ? & ?). by split.
Qed.

(** X13.  An item that fails leaves every table as it was. *)
Theorem failed_item_leaves_tables item w r w' :
  processItem item w = (Returned r, w') ->
  success r = false ->
  tables w' = tables w.
Proof.
  intros E S.
  destruct (processItem_effects item w)
    as (out & w0 & evs & E0 & _ & _ & _ & _ & _ & Hout).
  rewrite E in E0. injection E0 as <- <-.
  destruct Hout as (_ & _ & Hf & _). by apply Hf.
Qed.

(** X14.  One run of [processItem] sends at most one upload and at most
    one update, and no update without the upload; the bucket changes only
    with an upload, the tables only with an update; a success has sent
    exactly one of each, and a run that throws has sent neither. *)
Theorem processItem_writes_bounded item w :
  exists out w',
    processItem item w = (out, w')
    /\ uploads (new_events w w') <= 1
    /\ updates (new_events w w') <= uploads (new_events w w')
    /\ (uploads (new_events w w') = 0 -> bucket w' = bucket w)
    /\ (updates (new_events w w') = 0 -> tables w' = tables w)
    /\ match out with
       | Returned r =>
           success r = true ->
           uploads (new_events w w') = 1 /\ updates (new_events w w') = 1
       | Raised _ =>
           uploads (new_events w w') = 0 /\ updates (new_events w w') = 0
       end.
Proof.
  destruct (processItem_effects item w)
    as (out & w' & evs & E & L & U1 & U2 & U3 & U4 & Hout).
  exists out, w'. rewrite (new_events_app _ _ _ L).
  split; [done|]. split; [done|]. split; [done|]. split; [done|].
  split; [done|]. destruct out as [r|e]; [apply Hout|]. lia.
Qed.

(** X15.  When the normalization of the type throws an error and the id
    of the item converts to a string, [processItem] answers with the
    message of the error (['Unknown error'] for an empty one) and the type
    as given, and it has sent no request. *)
Theorem normalization_error_reported item (e : thrown) w :
  normalizeDocumentType (prop "type" item) = Raised (Exn e) ->
  printable (prop "id" item) = true ->
  exists w',
    processItem item w
    = (Returned {| id := prop "id" item; type := prop "type" item;
                   success := false;
                   error := str_or (message_of e) "Unknown error";
                   url := None |}, w')
    /\ tables w' = tables w /\ bucket w' = bucket w /\ faults w' = faults w
    /\ requests (new_events w w') = 0.
Proof.
  intros N P. rewrite processItem_unfold, N, processItem_catch_run, P.
  eexists. split; [reflexivity|]. repeat split.
  rewrite (new_events_app w _ [Enter StepNormalize; ItemError]); [done|].
  simpl. by list_norm.
Qed.

(** X16.  For a non-empty batch of items that are malformed or ordinary
    (id and type convert to strings, no import throws [null]), there is
    one result for each item, [errors] holds one line for each well-formed
    item whose result failed, in the order of the items, and is left out
    when there is none; the batch-level [success] says whether there is
    none.  (Malformed items have a failed result and no line.) *)
Theorem batch_errors_list env req items w :
  ~ is_preflight req ->
  passes_validation env req items ->
  items <> [] ->
  Forall (fun item => invalid_item item = false -> ordinary item) items ->
  exists b w',
    handler env req w
    = (Returned {| status := 200; payload := BodyBatch b |}, w')
    /\ length (results b) = length items
    /\ let lines := map error_line (failed_processed items (results b)) in
       errors b = match lines with [] => None | _ => Some lines end
       /\ batch_success b = match lines with [] => true | _ => false end.
Proof.
  intros P (U & K & parsed & B & R) Hne Hord.
  rewrite (handler_unfold _ _ _ P). unfold try_catch, handler_try.
  rewrite U, K, B. simpl. rewrite call_bind, call_bind, R.
  destruct items as [|item rest]; [done|].
  destruct (for_each_item_exact (item :: rest) [] [] w Hord)
    as (rs & w' & E & Hlen & _).
  rewrite (bind_run _ _ _ _ _ E). simpl. eexists _, w'.
  split; [reflexivity|]. simpl. by split.
Qed.

(** X17.  A batch of malformed items only is answered without touching
    the world: no request is sent, nothing is logged, and every item gets
    the 'Invalid item format' result. *)
Theorem malformed_batch_touches_nothing env req items w :
  ~ is_preflight req ->
  passes_validation env req items ->
  Forall (fun item => invalid_item item = true) items ->
  exists resp,
    handler env req w = (Returned resp, w)
    /\ status resp = 200
    /\ results_of (payload resp)
       = map (fun item =>
                rejected item "Invalid item format (missing id or type)")
           items.
Proof.
  intros P (U & K & parsed & B & R) Hbad.
  rewrite (handler_unfold _ _ _ P). unfold try_catch, handler_try.
  rewrite U, K, B. simpl. rewrite call_bind, call_bind, R.
  destruct items as [|item rest]; [by eexists|].
  destruct (for_each_item_exact (item :: rest) [] [] w
              (invalid_items_ordinary _ Hbad))
    as (rs & w' & E & _ & Hall).
  destruct (Hall Hbad) as [-> ->].
  rewrite (bind_run _ _ _ _ _ E). by eexists.
Qed.

(** X18.  A body that cannot be read -- [req.json()] rejects, or it
    parses to [null] -- is answered with status 500, the message of the
    exception (['Unknown error'] for an empty one) and [success: false],
    and nothing is processed. *)
Theorem unreadable_body_response env req json e w :
  ~ is_preflight req ->
  env_missing (SUPABASE_URL env) = false ->
  env_missing (SUPABASE_SERVICE_ROLE_KEY env) = false ->
  body req = Some json ->
  json = Raised e \/ (json = Returned VNull /\ e = Thrown TypeError_message) ->
  handler env req w
  = (Returned {| status := 500;
                 payload := BodyFailure (str_or (message_of e) "Unknown error")
                              false |}, w).
Proof.
  intros P U K B J.
  rewrite (handler_unfold _ _ _ P). unfold try_catch, handler_try.
  rewrite U, K, B. simpl. rewrite call_bind.
  by destruct J as [-> | [-> ->]].
Qed.

(** X19.  The loop takes an item for processing exactly when it is a
    plain object whose [id] and [type] are truthy: then [processItem] is
    started for it, once.  Null, primitives and arrays, and an object
    whose id or type is missing, empty, zero, false or null, get the
    'Invalid item format' result, and nothing else happens. *)
Theorem accepted_item_iff item rs es w :
  exists out w',
    process_one item (rs, es) w = (out, w')
    /\ (items_processed (new_events w w') = 1 <-> has_id_and_type item)
    /\ (~ has_id_and_type item ->
        out = Returned (rs ++ [rejected item
                                 "Invalid item format (missing id or type)"],
                        es)
        /\ w' = w).
Proof.
  assert (invalid_item item = false <-> has_id_and_type item) as Hiff.
  { unfold invalid_item, has_id_and_type. split.
    - intros V. repeat (apply orb_false_elim in V as [V ?]).
      destruct item; try done. eexists. split; [done|]. simpl in *.
      split; by apply negb_false_iff.
    - intros (fields & -> & I & T). simpl. by rewrite I, T. }
  destruct (process_one_run item rs es w)
    as (block & es1 & w' & evs & E & _ & L & P).
  destruct (invalid_item item) eqn:V.
  - rewrite (process_one_invalid _ _ _ _ V). eexists _, w.
    split; [reflexivity|]. unfold new_events. rewrite drop_all.
    split; [|done]. split; [done|]. intros Hp. apply Hiff in Hp. congruence.
  - exists (Returned (rs ++ block, es ++ es1)), w'. split; [done|].
    rewrite (new_events_app _ _ _ L). split.
    + split; [intros _; by apply Hiff|done].
    + intros Hn. destruct Hn. by apply Hiff.
Qed.

(** X24.  A batch sends at most one upload for each well-formed item
    and none for the others, never more updates than uploads, and every
    successful result stands for an update that was sent. *)
Theorem batch_writes_bounded env req items w :
  ~ is_preflight req ->
  passes_validation env req items ->
  exists resp w',
    handler env req w = (Returned resp, w')
    /\ uploads (new_events w w') <= length (List.filter well_formed items)
    /\ updates (new_events w w') <= uploads (new_events w w')
    /\ length (List.filter success (results_of (payload resp)))
       <= updates (new_events w w').
Proof.
  intros P (U & K & parsed & B & R).
  rewrite (handler_unfold _ _ _ P). unfold try_catch, handler_try.
  rewrite U, K, B. simpl. rewrite call_bind, call_bind, R.
  destruct items as [|item rest].
  { eexists _, w. split; [reflexivity|]. unfold new_events.
    rewrite drop_all. by repeat split. }
  destruct (for_each_item_counts (item :: rest) [] [] w)
    as (rs & es & w' & evs & E & L & U1 & U2 & U3).
  rewrite (bind_run _ _ _ _ _ E). eexists _, w'. split; [reflexivity|].
  by rewrite (new_events_app _ _ _ L).
Qed.

(** X25.  The loop that attaches products to invoice or estimate lines
    never throws and only reads; it returns the lines in their order, none
    dropped or added, each with all its columns as they were except
    [gl_products]. *)
Theorem attach_products_keeps_lines lines w :
  exists lines' w',
    attach_products lines w = (Returned lines', w')
    /\ tables w' = tables w /\ bucket w' = bucket w
    /\ Forall2 (fun line line' =>
                  forall k, k <> "gl_products" ->
                            obj_get k line' = obj_get k line)
         lines lines'.
Proof.
  destruct (attach_products_lines lines w)
    as (lines' & w' & evs & E & F & T & B & _).
  by exists lines', w'.
Qed.

(** X26.  A request that gets past the checks is answered with the
    results of its items one item after the other: one result for an
    item, or two when the report of its failure throws, each with the id
    of the item (or ['unknown']) and, when failed, a message; and
    [processItem] was started once for every well-formed item, whatever
    happened to the others. *)
Theorem batch_answers_every_item env req items w :
  ~ is_preflight req ->
  passes_validation env req items ->
  exists resp w' blocks,
    handler env req w = (Returned resp, w')
    /\ results_of (payload resp) = concat blocks
    /\ Forall2 answers items blocks
    /\ items_processed (new_events w w')
       = length (List.filter well_formed items).
Proof.
  intros P V. rewrite (handler_unfold _ _ _ P).
  destruct (handler_try_run env req items w V)
    as (b & w' & evs & blocks & E & R & A & L & N).
  rewrite (try_run _ _ _ _ _ E). eexists _, w', blocks.
  split; [done|]. split; [done|]. split; [done|].
  by rewrite (new_events_app _ _ _ L).
Qed.

(** X27.  For an item whose id cannot be converted to a string,
    [processItem] throws the error of the conversion: its [catch] prints
    the id first.  It has sent no request and changed nothing. *)
Theorem unprintable_id_thrown item w :
  printable (prop "id" item) = false ->
  exists w',
    processItem item w = (Raised (Exn (Thrown ToPrimitive_message)), w')
    /\ tables w' = tables w /\ bucket w' = bucket w
    /\ requests (new_events w w') = 0.
Proof.
  intros P. rewrite processItem_unfold.
  set (w0 := record_event (Enter StepNormalize) w).
  destruct (normalizeDocumentType (prop "type" item)) as [t|e].
  - cbv zeta. unfold try_catch, processItem_steps.
    destruct (fetchDocumentWithRelations_run t (prop "id" item) w0)
      as (out & w1 & sel & E & T & B & _ & Hout).
    rewrite (bind_run _ _ _ _ _ E). destruct out as [o|e].
    { destruct Hout as [P' _]. congruence. }
    destruct Hout as (_ & _ & _ & L).
    rewrite processItem_catch_run, P. exists w1.
    split; [done|]. split; [done|]. split; [done|].
    rewrite (new_events_app w w1 [Enter StepNormalize; Enter StepFetch]);
      [done|].
    rewrite L. simpl. by list_norm.
  - rewrite processItem_catch_run, P. exists w0. repeat split.
    by rewrite (new_events_app w w0 [Enter StepNormalize]).
Qed.

(** X28.  When the normalization throws [null], the [catch] of
    [processItem] makes its report and then throws itself, on reading the
    message of the exception; the loop of the handler answers the item
    with the one 'critical' result that carries the message of that
    second error, and adds its line to [errors]. *)
Theorem null_exception_rethrown item rs es w :
  invalid_item item = false ->
  printable (prop "id" item) = true ->
  normalizeDocumentType (prop "type" item) = Raised ThrownNull ->
  processItem item w
  = (Raised (Exn (Thrown TypeError_message)),
     record_event ItemError (record_event (Enter StepNormalize) w))
  /\ process_one item (rs, es) w
     = (Returned (rs ++ [rejected item (str_or TypeError_message
                                          "Critical processing error")],
                  es ++ ["Critical error: " +:+ TypeError_message]),
        record_event ItemError (record_event (Enter StepNormalize) w)).
Proof.
  intros V P N.
  assert (processItem item w
          = (Raised (Exn (Thrown TypeError_message)),
             record_event ItemError (record_event (Enter StepNormalize) w)))
    as E by (by rewrite processItem_unfold, N, processItem_catch_run, P).
  split; [done|]. unfold process_one. rewrite V.
  by rewrite (attempt_bind _ _ _ _ _ E).
Qed.

End Extras.
(** *** The sync overview card *)

(** X20.  When the Sync button of the card is enabled, a click calls
    [onSync] with the connection id and the mapping id of the status. *)
Theorem card_enabled_button_syncs status :
  ActiveMappingCard.isDisabled status false = false ->
  exists c m,
    ActiveMappingCard.handleSync status = Some (c, m)
    /\ ActiveMappingCard.connection_id status = Some c
    /\ ActiveMappingCard.mapping_id status = Some m.
Proof.
  unfold ActiveMappingCard.isDisabled, ActiveMappingCard.handleSync.
  intros D. repeat (apply orb_false_elim in D as [D ?]).
  destruct (ActiveMappingCard.connection_id status) as [c|]; [|done].
  destruct (ActiveMappingCard.mapping_id status) as [m|]; [|done].
  simpl in *. exists c, m.
  destruct (String.eqb c ""), (String.eqb m ""); done.
Qed.

(** X21.  [handleSync] never calls [onSync] with a missing or empty id:
    a call it makes has the two ids of the status, both non-empty. *)
Theorem card_sync_ids_nonempty status c m :
  ActiveMappingCard.handleSync status = Some (c, m) ->
  ActiveMappingCard.connection_id status = Some c
  /\ ActiveMappingCard.mapping_id status = Some m
  /\ c <> "" /\ m <> "".
Proof.
  unfold ActiveMappingCard.handleSync.
  destruct (ActiveMappingCard.connection_id status) as [c'|]; [|done].
  destruct (ActiveMappingCard.mapping_id status) as [m'|]; simpl;
    [|by rewrite andb_false_r].
  destruct (String.eqb c' "") eqn:C; [done|].
  destruct (String.eqb m' "") eqn:Hm; [done|]. simpl.
  intros [= <- <-]. repeat split; intros ->; by rewrite String.eqb_refl in *.
Qed.

(** X22.  The texts of the card are never empty: the display name, the
    application name, the table name and the status all fall back to a
    default when the field is missing or empty. *)
Theorem card_texts_nonempty status :
  ActiveMappingCard.displayName status <> ""
  /\ ActiveMappingCard.appName status <> ""
  /\ ActiveMappingCard.supababeTable status <> ""
  /\ ActiveMappingCard.currentStatus status <> "".
Proof.
  assert (forall a d, d <> "" -> ActiveMappingCard.or_default a d <> "") as Hd.
  { intros [s|] d Hne; simpl; [by apply str_or_nonempty|done]. }
  repeat split; by apply Hd.
Qed.

(** X23.  The status label never shows its ['Not synced'] fallback: the
    status it tests has already been defaulted, so the label is always the
    capitalized status, and for a missing status the capitalized
    ['not_synced']. *)
Theorem card_status_label_fallback_unreachable capitalize status :
  ActiveMappingCard.statusLabel capitalize status
  = capitalize (ActiveMappingCard.currentStatus status)
  /\ (ActiveMappingCard.present (ActiveMappingCard.current_status status) = false ->
      ActiveMappingCard.statusLabel capitalize status = capitalize "not_synced").
Proof.
  unfold ActiveMappingCard.statusLabel.
  assert (ActiveMappingCard.currentStatus status <> "") as Hne.
  { unfold ActiveMappingCard.currentStatus.
    destruct (ActiveMappingCard.current_status status) as [s|]; simpl;
      [by apply str_or_nonempty|done]. }
  destruct (String.eqb (ActiveMappingCard.currentStatus status) "") eqn:E.
  { by apply String.eqb_eq in E. }
  split; [done|]. intros Hp. f_equal.
  unfold ActiveMappingCard.currentStatus, ActiveMappingCard.present in *.
  destruct (ActiveMappingCard.current_status status) as [s|]; [|done].
  simpl. unfold str_or. apply negb_false_iff in Hp. by rewrite Hp.
Qed.

(** ** The properties at work in the small deployment *)

#[local] Existing Instance Demo.host.

(** One invoice that exists and one that does not: the log of the batch. *)
Example batch_log :
  trace (snd (handler service_env
                (post_items [Run.invoice; Run.missing_invoice]) Demo.world))
  = [Enter StepNormalize; Enter StepFetch;
     DbSelect "gl_invoices" "id" (VStr "inv-1");
     DbSelect "gl_accounts" "glide_row_id" (VStr "acc-1");
     DbSelect "gl_invoice_lines" "rowid_invoices" (VStr "g-1");
     DbSelect "gl_customer_payments" "rowid_invoices" (VStr "g-1");
     Enter StepGenerate; Enter StepStore; StorageUpload "invoices/g-1.pdf";
     Enter StepUpdate;
     DbUpdate "gl_invoices" "supabase_pdf_url"
       "https://storage.test/documents/invoices/g-1.pdf" (VStr "inv-1");
     Enter StepNormalize; Enter StepFetch;
     DbSelect "gl_invoices" "id" (VStr "nope"); StepError StepFetch].
Proof. vm_compute. reflexivity. Qed.

(** A fault on the upload: the item fails at the fourth step. *)
Example upload_fault :
  let w := {| tables := tables Demo.world; bucket := bucket Demo.world;
              faults := [None; None; None; None; Some "bucket unavailable"];
              trace := [] |} in
  fst (processItem Run.invoice w)
  = Returned {| id := VStr "inv-1"; type := VStr "invoice"; success := false;
                error := "Failed to store PDF for invoice inv-1";
                url := None |}
  /\ steps_of (trace (snd (processItem Run.invoice w))) = take 4 pipeline.
Proof. vm_compute. split; reflexivity. Qed.

(** A document whose id cannot be printed: the log line of [generatePDF]
    throws, and the function returns [null]. *)
Example generatePDF_unprintable_id :
  fst (generatePDF INVOICE (VObj [("id", Probe.unprintable)]) Demo.world)
  = Returned None.
Proof. vm_compute. reflexivity. Qed.

(** The batch of C2, followed by a malformed item: three
    results for two items, the rejection of the second item comes third. *)
Example two_results_then_rejection :
  fst (handler service_env (post_items [Probe.unprintable_type; VNull])
         Demo.world)
  = Returned
      {| status := 200;
         payload :=
           BodyBatch
             {| results :=
                  [ {| id := VStr "inv-1"; type := Probe.unprintable;
                       success := false; error := "Unsupported document type";
                       url := None |};
                    {| id := VStr "inv-1"; type := Probe.unprintable;
                       success := false;
                       error := "Cannot convert object to primitive value";
                       url := None |};
                    {| id := VStr "unknown"; type := VStr "unknown";
                       success := false;
                       error := "Invalid item format (missing id or type)";
                       url := None |} ];
                errors :=
                  Some ["Critical error: Cannot convert object to primitive value"];
                batch_success := false |} |}.
Proof. vm_compute. reflexivity. Qed.



Lemma unresolved_document_writes_nothing_witness :
  processItem Run.missing_invoice Demo.world
  = (Returned {| id := VStr "nope"; type := VStr "invoice"; success := false;
                 error := "Failed to fetch document data for invoice nope";
                 url := None |}, Run.after_missing_fetch)
  /\ tables Run.after_missing_fetch = tables Demo.world
  /\ bucket Run.after_missing_fetch = bucket Demo.world
  /\ Forall (fun e => ~ is_write e)
       (new_events Demo.world Run.after_missing_fetch).
Proof.
  apply (@unresolved_document_writes_nothing Demo.host Run.missing_invoice
           INVOICE Demo.world Run.after_missing_fetch).
  - reflexivity.
  - vm_compute. reflexivity.
Defined.

Lemma malformed_item_rejected_witness :
  exists resp w' blocks,
    handler service_env (post_items [Probe.unprintable_type; VNull]) Demo.world
    = (Returned resp, w')
    /\ status resp = 200
    /\ results_of (payload resp) = concat blocks
    /\ Forall2 answers [Probe.unprintable_type; VNull] blocks
    /\ blocks !! 1
       = Some [ {| id := VStr "unknown"; type := VStr "unknown";
                   success := false;
                   error := "Invalid item format (missing id or type)";
                   url := None |} ].
Proof.
  apply (@malformed_item_rejected Demo.host service_env
           (post_items [Probe.unprintable_type; VNull])
           [Probe.unprintable_type; VNull] 1 VNull Demo.world).
  - unfold is_preflight. simpl. discriminate.
  - split; [reflexivity|]. split; [reflexivity|].
    eexists. split; reflexivity.
  - reflexivity.
  - reflexivity.
Defined.

Lemma top_level_failure_response_witness :
  handler Run.no_env (post_items [Run.invoice]) Demo.world
  = (Returned {| status := 500;
                 payload := BodyFailure "Missing environment variables SUPABASE_URL or SUPABASE_SERVICE_ROLE_KEY" false |},
     Demo.world).
Proof.
  apply (@top_level_failure_response Demo.host Run.no_env
           (post_items [Run.invoice]) _ Demo.world).
  - unfold is_preflight. simpl. discriminate.
  - apply NoEnvironment. reflexivity.
Defined.

(** An id that cannot be converted to a string: the fetch fails, and
    [processItem] returns no failure result but throws. *)
Lemma processItem_throws_at_unprintable_id :
  exists w',
    processItem Probe.unprintable_id Demo.world
    = (Raised (Exn (Thrown "Cannot convert object to primitive value")), w')
    /\ steps_of (new_events Demo.world w') = [StepNormalize; StepFetch]
    /\ ~ exists r,
          processItem Probe.unprintable_id Demo.world = (Returned r, w').
Proof.
  eexists. split; [vm_compute; reflexivity|]. split; [reflexivity|].
  intros [r E]. vm_compute in E. discriminate E.
Qed.

(** *** The further properties at work *)

(** In the small deployment no import throws [null]. *)
Lemma demo_imports_throw_errors item : ~ @import_throws_null Demo.host item.
Proof.
  intros [N | (t & _ & [(documentData & F) | G])].
  - simpl in N. unfold Demo.normalize in N.
    repeat case_match; discriminate N.
  - simpl in F. unfold Demo.file_name in F. by case_match.
  - discriminate G.
Qed.

Lemma fetch_returns_document_iff_found_witness :
  exists o w',
    fetchDocumentWithRelations INVOICE (VStr "inv-1") Demo.world
    = (Returned o, w')
    /\ (is_Some o <-> found INVOICE (VStr "inv-1") Demo.world).
Proof.
  apply (@fetch_returns_document_iff_found Demo.host INVOICE (VStr "inv-1")
           Demo.world).
  - reflexivity.
  - intros config rows row C T F. simpl in C. injection C as <-.
    vm_compute in T. injection T as <-.
    vm_compute in F. injection F as <-. reflexivity.
Defined.

Lemma fetched_document_keeps_columns_witness :
  exists config rows row fields,
    documentTypeConfig INVOICE = Some config
    /\ tables Demo.world !! tableName config = Some rows
    /\ List.filter (row_matches "id" (VStr "inv-1")) rows = [row]
    /\ Probe.fetched_invoice = VObj fields
    /\ (forall k, k <> "account" -> k <> lines_key INVOICE ->
                  k ∉ relation_names config ->
                  obj_get k fields = obj_get k row)
    /\ ("account" ∉ relation_names config ->
        obj_get "account" fields = VNull
        \/ exists account, obj_get "account" fields = VObj account)
    /\ (lines_key INVOICE ∉ relation_names config ->
        exists lines, obj_get (lines_key INVOICE) fields = VArr (map VObj lines)).
Proof.
  apply (@fetched_document_keeps_columns Demo.host INVOICE (VStr "inv-1")
           Demo.world Probe.fetched_invoice Probe.after_fetch).
  vm_compute. reflexivity.
Defined.

Lemma storePDF_failure_after_upload_witness :
  exists w',
    @storePDF Probe.host_without_urls [] "g-1.pdf" "invoices" Demo.world
    = (Returned None, w')
    /\ bucket w' !! "invoices/g-1.pdf" = Some [].
Proof.
  apply (@storePDF_failure_after_upload Probe.host_without_urls [] "g-1.pdf"
           "invoices" Demo.world).
  - reflexivity.
  - left. reflexivity.
Defined.

Lemma failed_update_writes_nothing_witness :
  tables Probe.after_bad_update = tables Demo.world
  /\ bucket Probe.after_bad_update = bucket Demo.world.
Proof.
  apply (@failed_update_writes_nothing Demo.host (OtherType "memo")
           (VStr "inv-1") "https://storage.test/documents/invoices/g-1.pdf"
           Demo.world Probe.after_bad_update).
  vm_compute. reflexivity.
Defined.

Lemma update_touches_only_the_field_witness :
  exists config field rows rows',
    documentTypeConfig INVOICE = Some config
    /\ getPdfUrlField INVOICE = Returned field
    /\ tables Demo.world !! tableName config = Some rows
    /\ tables Probe.after_update !! tableName config = Some rows'
    /\ length rows' = length rows
    /\ (forall i row, rows !! i = Some row ->
        exists row',
          rows' !! i = Some row'
          /\ (row_matches "id" (VStr "inv-1") row = false -> row' = row)
          /\ (row_matches "id" (VStr "inv-1") row = true ->
              obj_get field row'
              = VStr "https://storage.test/documents/invoices/g-1.pdf")
          /\ (forall k, k <> field -> obj_get k row' = obj_get k row))
    /\ (forall table, table <> tableName config ->
                      tables Probe.after_update !! table
                      = tables Demo.world !! table)
    /\ bucket Probe.after_update = bucket Demo.world.
Proof.
  apply (@update_touches_only_the_field Demo.host INVOICE (VStr "inv-1")
           "https://storage.test/documents/invoices/g-1.pdf" Demo.world
           Probe.after_update).
  vm_compute. reflexivity.
Defined.

Lemma update_without_matching_row_witness :
  exists w',
    updateDatabaseWithPdfUrl INVOICE (VStr "nope") "https://storage.test/x.pdf"
      Demo.world = (Returned true, w')
    /\ tables w' = tables Demo.world.
Proof.
  apply (@update_without_matching_row Demo.host INVOICE (VStr "nope")
           "https://storage.test/x.pdf" Demo.world
           {| tableName := "gl_invoices"; accountRefField := "rowid_accounts";
              linesTableName := Some "gl_invoice_lines";
              additionalRelations :=
                Some [{| rel_tableName := "gl_customer_payments";
                         referenceField := "rowid_invoices" |}] |}
           "supabase_pdf_url" [Demo.invoice_row]).
  - reflexivity.
  - reflexivity.
  - reflexivity.
  - vm_compute. reflexivity.
  - reflexivity.
Defined.

Lemma failed_item_leaves_tables_witness :
  tables Probe.after_missing = tables Demo.world.
Proof.
  apply (@failed_item_leaves_tables Demo.host (item_of "nope" "invoice")
           Demo.world Probe.missing_result Probe.after_missing).
  - vm_compute. reflexivity.
  - reflexivity.
Defined.

Lemma normalization_error_reported_witness :
  exists w',
    processItem Probe.bogus Demo.world
    = (Returned {| id := VStr "inv-1"; type := VStr "receipt";
                   success := false;
                   error := "Unsupported document type: receipt";
                   url := None |}, w')
    /\ tables w' = tables Demo.world /\ bucket w' = bucket Demo.world
    /\ faults w' = faults Demo.world
    /\ requests (new_events Demo.world w') = 0.
Proof.
  apply (@normalization_error_reported Demo.host Probe.bogus
           (Thrown "Unsupported document type: receipt") Demo.world).
  - reflexivity.
  - reflexivity.
Defined.

Lemma batch_errors_list_witness :
  exists b w',
    handler service_env
      (post_items [Run.invoice; Probe.without_type; Run.missing_invoice])
      Demo.world
    = (Returned {| status := 200; payload := BodyBatch b |}, w')
    /\ length (results b)
       = length [Run.invoice; Probe.without_type; Run.missing_invoice]
    /\ let lines :=
         map error_line
           (failed_processed
              [Run.invoice; Probe.without_type; Run.missing_invoice]
              (results b)) in
       errors b = match lines with [] => None | _ => Some lines end
       /\ batch_success b = match lines with [] => true | _ => false end.
Proof.
  apply (@batch_errors_list Demo.host service_env
           (post_items [Run.invoice; Probe.without_type; Run.missing_invoice])
           [Run.invoice; Probe.without_type; Run.missing_invoice] Demo.world).
  - unfold is_preflight. simpl. discriminate.
  - split; [reflexivity|]. split; [reflexivity|].
    eexists. split; reflexivity.
  - discriminate.
  - apply Forall_cons_2.
    { intros _. split; [reflexivity|]. split; [reflexivity|].
      apply demo_imports_throw_errors. }
    apply Forall_cons_2.
    { intros V. vm_compute in V. discriminate V. }
    apply Forall_cons_2; [|apply Forall_nil_2].
    intros _. split; [reflexivity|]. split; [reflexivity|].
    apply demo_imports_throw_errors.
Defined.

Lemma malformed_batch_touches_nothing_witness :
  exists resp,
    handler service_env (post_items [VNull; Probe.without_type]) Demo.world
    = (Returned resp, Demo.world)
    /\ status resp = 200
    /\ results_of (payload resp)
       = map (fun item =>
                rejected item "Invalid item format (missing id or type)")
           [VNull; Probe.without_type].
Proof.
  apply (@malformed_batch_touches_nothing Demo.host service_env
           (post_items [VNull; Probe.without_type])
           [VNull; Probe.without_type] Demo.world).
  - unfold is_preflight. simpl. discriminate.
  - split; [reflexivity|]. split; [reflexivity|].
    eexists. split; reflexivity.
  - repeat constructor.
Defined.

Lemma unreadable_body_response_witness :
  handler service_env Probe.broken_post Demo.world
  = (Returned {| status := 500;
                 payload := BodyFailure "Unexpected end of JSON input" false |},
     Demo.world).
Proof.
  apply (@unreadable_body_response Demo.host service_env Probe.broken_post
           (Raised (Thrown "Unexpected end of JSON input"))
           (Thrown "Unexpected end of JSON input") Demo.world).
  - unfold is_preflight. simpl. discriminate.
  - reflexivity.
  - reflexivity.
  - reflexivity.
  - left. reflexivity.
Defined.

Lemma card_enabled_button_syncs_witness :
  exists c m,
    ActiveMappingCard.handleSync Probe.ready = Some (c, m)
    /\ ActiveMappingCard.connection_id Probe.ready = Some c
    /\ ActiveMappingCard.mapping_id Probe.ready = Some m.
Proof.
  apply (card_enabled_button_syncs Probe.ready). reflexivity.
Defined.

Lemma card_sync_ids_nonempty_witness :
  ActiveMappingCard.connection_id Probe.ready = Some "conn-1"
  /\ ActiveMappingCard.mapping_id Probe.ready = Some "map-1"
  /\ "conn-1" <> "" /\ "map-1" <> "".
Proof.
  apply (card_sync_ids_nonempty Probe.ready "conn-1" "map-1"). reflexivity.
Defined.

Lemma batch_writes_bounded_witness :
  exists resp w',
    handler service_env
      (post_items [Run.invoice; Probe.without_type; Run.missing_invoice])
      Demo.world = (Returned resp, w')
    /\ uploads (new_events Demo.world w')
       <= length (List.filter well_formed
                    [Run.invoice; Probe.without_type; Run.missing_invoice])
    /\ updates (new_events Demo.world w') <= uploads (new_events Demo.world w')
    /\ length (List.filter success (results_of (payload resp)))
       <= updates (new_events Demo.world w').
Proof.
  apply (@batch_writes_bounded Demo.host service_env
           (post_items [Run.invoice; Probe.without_type; Run.missing_invoice])
           [Run.invoice; Probe.without_type; Run.missing_invoice] Demo.world).
  - unfold is_preflight. simpl. discriminate.
  - split; [reflexivity|]. split; [reflexivity|].
    eexists. split; reflexivity.
Defined.

Lemma batch_answers_every_item_witness :
  exists resp w' blocks,
    handler service_env
      (post_items [Run.invoice; VNull; Probe.unprintable_type;
                   Probe.unprintable_id]) Demo.world
    = (Returned resp, w')
    /\ results_of (payload resp) = concat blocks
    /\ Forall2 answers
         [Run.invoice; VNull; Probe.unprintable_type; Probe.unprintable_id]
         blocks
    /\ items_processed (new_events Demo.world w')
       = length (List.filter well_formed
                   [Run.invoice; VNull; Probe.unprintable_type;
                    Probe.unprintable_id]).
Proof.
  apply (@batch_answers_every_item Demo.host service_env
           (post_items [Run.invoice; VNull; Probe.unprintable_type;
                        Probe.unprintable_id])
           [Run.invoice; VNull; Probe.unprintable_type; Probe.unprintable_id]
           Demo.world).
  - unfold is_preflight. simpl. discriminate.
  - split; [reflexivity|]. split; [reflexivity|].
    eexists. split; reflexivity.
Defined.

Lemma unprintable_id_thrown_witness :
  exists w',
    processItem Probe.unprintable_id Demo.world
    = (Raised (Exn (Thrown "Cannot convert object to primitive value")), w')
    /\ tables w' = tables Demo.world /\ bucket w' = bucket Demo.world
    /\ requests (new_events Demo.world w') = 0.
Proof.
  apply (@unprintable_id_thrown Demo.host Probe.unprintable_id Demo.world).
  reflexivity.
Defined.

Lemma null_exception_rethrown_witness :
  @processItem Probe.host_throwing_null Run.invoice Demo.world
  = (Raised (Exn (Thrown "Cannot read properties of undefined")),
     record_event ItemError (record_event (Enter StepNormalize) Demo.world))
  /\ @process_one Probe.host_throwing_null Run.invoice ([], []) Demo.world
     = (Returned ([] ++ [ rejected Run.invoice
                            (str_or "Cannot read properties of undefined"
                               "Critical processing error") ],
                  [] ++ ["Critical error: " +:+ "Cannot read properties of undefined"]),
        record_event ItemError (record_event (Enter StepNormalize) Demo.world)).
Proof.
  apply (@null_exception_rethrown Probe.host_throwing_null Run.invoice [] []
           Demo.world).
  - reflexivity.
  - reflexivity.
  - reflexivity.
Defined.
